(** * Context Free: the POSIX platform layer (src-unix/posixSystem.cpp)

    A shallow embedding of [PosixSystem] and the properties its design
    document states about it.  The operating system, the C library and ICU
    are not part of the program: they appear as the fields of a [Host]
    record, and the theorems about the member functions hold for every
    host.  Module [Demo] has a few hosts to run the functions on.
    Module [Win] has the colour picker of the Windows front end
    (src-cs/CppWrapper/TrackPoint.cpp), over a [Desktop] record in the
    same way.

    Conventions.
    - A [const char*] string is modelled by the characters before its
      terminating NUL, a [std::string] by its characters; both are [string].
    - [int32_t], [uint64_t], [size_t] values are [Z] with the conversions
      between them written out ([to_int32], [to_uint64], ...).
    - A function that can throw, leave the process or run into undefined
      behaviour returns an [outcome]. *)

From Stdlib Require Import ZArith List String Ascii Bool Lia.
Import ListNotations.

Local Open Scope string_scope.
Local Open Scope Z_scope.

(** ** Results of running a piece of the program *)

Inductive exn : Type :=
| CfdgError (msg : string)     (* thrown by [CfdgError::Error] *)
| std_length_error             (* [basic_string::resize] beyond [max_size()] *)
| std_out_of_range.            (* [basic_string::replace] with [pos > size()] *)

Inductive outcome (A : Type) : Type :=
| Returned (a : A)             (* normal return *)
| Thrown (e : exn)             (* an exception propagates to the caller *)
| Exited (status : Z)          (* [std::exit(status)] *)
| Undefined                    (* signed overflow *)
| OutOfFuel.                   (* the loop was still running when the fuel ran out *)

Arguments Returned {A} a.
Arguments Thrown {A} e.
Arguments Exited {A} status.
Arguments Undefined {A}.
Arguments OutOfFuel {A}.

(** ** Fixed-width integers *)

Definition INT32_MAX : Z := 2147483647.

(** Conversion to [int32_t]: two's complement wrap-around. *)
Definition to_int32 (z : Z) : Z := (z + 2 ^ 31) mod 2 ^ 32 - 2 ^ 31.

(** Conversion to an unsigned type of [bits] bits. *)
Definition to_unsigned (bits : Z) (z : Z) : Z := z mod 2 ^ bits.

Definition to_uint64 : Z -> Z := to_unsigned 64.

(** ** Strings *)

Module Str.

Definition slash : ascii := "/"%char.

(** [s.back()]; the empty string has none. *)
Fixpoint back (s : string) : option ascii :=
  match s with
  | EmptyString => None
  | String c EmptyString => Some c
  | String _ r => back r
  end.

(** The first [n] characters, and what follows them. *)
Fixpoint take (n : nat) (s : string) : string :=
  match n, s with
  | S n', String c r => String c (take n' r)
  | _, _ => EmptyString
  end.

Fixpoint drop (n : nat) (s : string) : string :=
  match n, s with
  | S n', String _ r => drop n' r
  | _, _ => s
  end.

(** [s.rfind(c)]: the index of the last [c], [None] for [npos]. *)
Fixpoint rfind (s : string) (c : ascii) : option nat :=
  match s with
  | EmptyString => None
  | String d r =>
      match rfind r c with
      | Some i => Some (S i)
      | None => if Ascii.eqb d c then Some O else None
      end
  end.

(** [s.replace(pos, n, str)]: throws when [pos > size()], otherwise
    replaces the [min n (size() - pos)] characters from [pos] on. *)
Definition replace (s : string) (pos n : nat) (str : string) : outcome string :=
  if (String.length s <? pos)%nat then Thrown std_out_of_range
  else
    let n' := Nat.min n (String.length s - pos) in
    Returned (take pos s ++ str ++ drop (pos + n') s).

(** Does [c] occur in [s]? *)
Fixpoint occurs (c : ascii) (s : string) : bool :=
  match s with
  | EmptyString => false
  | String d r => Ascii.eqb d c || occurs c r
  end.

(** [strncmp(s1, s2, n)].  C fixes only the sign of the result; the end
    of a string is its NUL, smaller than every character. *)
Fixpoint strncmp (s1 s2 : string) (n : nat) : Z :=
  match n with
  | O => 0
  | S n' =>
      match s1, s2 with
      | EmptyString, EmptyString => 0
      | EmptyString, String _ _ => -1
      | String _ _, EmptyString => 1
      | String c1 r1, String c2 r2 =>
          if Ascii.eqb c1 c2 then strncmp r1 r2 n'
          else if (nat_of_ascii c1 <? nat_of_ascii c2)%nat then -1 else 1
      end
  end.

End Str.

(** ** String buffers handed to ICU *)

Module Buf.
Local Open Scope list_scope.

(** A [std::u16string] holds one UTF-16 unit per element.  A
    [std::wstring] written through [reinterpret_cast<UChar*>] holds one
    unit per element where [wchar_t] has 16 bits and two where it has 32,
    the low half first on a little-endian target. *)
Inductive layout : Type := Units16 | Wide32LE | Wide32BE.

Definition lo16 (w : Z) : Z := w mod 2 ^ 16.
Definition hi16 (w : Z) : Z := (w / 2 ^ 16) mod 2 ^ 16.

(** The units an element occupies in memory, in address order. *)
Definition units_of (lay : layout) (w : Z) : list Z :=
  match lay with
  | Units16 => [w]
  | Wide32LE => [lo16 w; hi16 w]
  | Wide32BE => [hi16 w; lo16 w]
  end.

Fixpoint join (f : Z -> Z -> Z) (us : list Z) : list Z :=
  match us with
  | a :: b :: r => f a b :: join f r
  | _ => []
  end.

(** The elements a run of units is read back as. *)
Definition elems_of (lay : layout) (us : list Z) : list Z :=
  match lay with
  | Units16 => us
  | Wide32LE => join (fun a b => lo16 a + lo16 b * 2 ^ 16) us
  | Wide32BE => join (fun a b => lo16 b + lo16 a * 2 ^ 16) us
  end.

(** [out] written over the start of [mem]; nothing is written past its end. *)
Definition overwrite (out mem : list Z) : list Z :=
  firstn (List.length mem) (out ++ skipn (List.length out) mem).

(** The buffer after the transform stored the units [out] at [&buf[0]],
    at most [capacity] of them.  The string's storage has one more
    element than its length, the terminator, which is not part of its
    value. *)
Definition store (lay : layout) (out : list Z) (capacity : Z) (buf : list Z) : list Z :=
  let mem := flat_map (units_of lay) (buf ++ [0]) in
  let written := firstn (Z.to_nat capacity) out in
  firstn (List.length buf) (elems_of lay (overwrite written mem)).

(** [buf.resize(n, c)] with an [int] argument [n]: a negative [n]
    converts to a [size_type] above [max_size()]. *)
Definition resize (buf : list Z) (n : Z) (c : Z) : outcome (list Z) :=
  if n <? 0 then Thrown std_length_error
  else if n <=? Z.of_nat (List.length buf) then Returned (firstn (Z.to_nat n) buf)
  else Returned (buf ++ repeat c (Z.to_nat n - List.length buf)).

End Buf.

(** ** ICU: error codes (unicode/utypes.h) *)

Module ICU.

Definition UErrorCode : Type := Z.
Definition U_ZERO_ERROR : UErrorCode := 0.
Definition U_BUFFER_OVERFLOW_ERROR : UErrorCode := 15.

(** [U_FAILURE(x)] is [(x) > U_ZERO_ERROR]; warnings are negative. *)
Definition U_FAILURE (code : UErrorCode) : bool := U_ZERO_ERROR <? code.

(** A conversion or normalization call with its source fixed: from the
    destination capacity and the incoming [*pErrorCode] to the returned
    length, the outgoing [*pErrorCode] and the units stored. *)
Definition transform : Type := Z -> UErrorCode -> Z * UErrorCode * list Z.

(** What one call reported. *)
Record report : Type := mk_report {
  r_capacity : Z;
  r_length : Z;
  r_status : UErrorCode
}.

End ICU.

(** ** The conversion loops of [normalize] *)

Module Growth.
Import ICU.
Local Open Scope list_scope.

(** Modelled from the spec: [CfdgError::Error] is defined in another
    file of the program.  The design document has a conversion failure
    "fail with ConversionError carrying the underlying diagnostic" and
    "surface as a TextConversionError (not fatal - caller decides)":
    the call does not return and the error reaches the caller. *)
Definition CfdgError_Error {A : Type} (msg : string) : outcome A :=
  Thrown (CfdgError msg).

(** The status test of both loops. *)
Definition conversion_failed (status : UErrorCode) : bool :=
  U_FAILURE status && negb (status =? U_BUFFER_OVERFLOW_ERROR).

(** Sequencing inside a loop body: what follows runs when [m] returns. *)
Definition and_then {A B : Type} (m : outcome A)
    (k : A -> outcome B * list report) : outcome B * list report :=
  match m with
  | Returned a => k a
  | Thrown e => (Thrown e, [])
  | Exited s => (Exited s, [])
  | Undefined => (Undefined, [])
  | OutOfFuel => (OutOfFuel, [])
  end.

(** [sz + 1] on [int32_t]. *)
Definition succ_int32 (sz : Z) : outcome Z :=
  if INT32_MAX <? sz + 1 then Undefined else Returned (sz + 1).

(** The [for (;;)] loop, the same for both conversions:
<<
    for (;;) {
        auto sz = T(&buf[0], static_cast<int32_t>(buf.length()+1), &status);
        if (U_FAILURE(status) && status != U_BUFFER_OVERFLOW_ERROR)
            CfdgError::Error(CfdgError::Default, "String conversion error");
        if (sz <= static_cast<int32_t>(buf.length())) {
            buf.resize(sz);
            break;
        } else {
            buf.resize(sz + 1, L' ');
        }
    }
>>
    It returns the status and the buffer at the [break], and the reports
    of the calls it made. *)
Fixpoint grow (lay : Buf.layout) (T : transform) (fuel : nat)
    (status : UErrorCode) (buf : list Z)
    : outcome (UErrorCode * list Z) * list report :=
  match fuel with
  | O => (OutOfFuel, [])
  | S fuel' =>
      let capacity := to_int32 (Z.of_nat (List.length buf) + 1) in
      let '(sz, status, out) := T capacity status in
      let buf := Buf.store lay out capacity buf in
      let '(o, log) :=
        and_then (if conversion_failed status
                  then CfdgError_Error "String conversion error"
                  else Returned tt) (fun _ =>
        if sz <=? to_int32 (Z.of_nat (List.length buf)) then
          and_then (Buf.resize buf sz 0) (fun buf =>
          (Returned (status, buf), []))
        else
          and_then (succ_int32 sz) (fun n =>
          and_then (Buf.resize buf n 32) (fun buf =>
          grow lay T fuel' status buf))) in
      (o, mk_report capacity sz status :: log)
  end.

End Growth.

(** ** PosixSystem *)

Module PosixSystem.
Import ICU.

(** A non-null pointer to an ICU object. *)
Definition handle : Type := Z.

(** [boost::fdostream]: an output stream over an open descriptor. *)
Record fdostream : Type := mk_fdostream { fd : Z }.

(** The preprocessor symbols the file tests.  A symbol with a value is
    [Some] of it when defined. *)
Record Build : Type := {
  def_NOSYSCTL : bool;
  def_GNU : bool;                (* __GNU__ *)
  def_ILP32 : bool;              (* __ILP32__ *)
  def_x86_64 : bool;             (* __x86_64__ *)
  def_linux : bool;              (* __linux__ *)
  SC_PHYS_PAGES : option Z;      (* _SC_PHYS_PAGES *)
  SC_PAGESIZE : option Z;        (* _SC_PAGESIZE *)
  CTL_HW : option Z;
  HW_MEMSIZE : option Z;
  HW_PHYSMEM64 : option Z;
  HW_REALMEM : option Z;
  HW_PHYSMEM : option Z
}.

(** [sys/stat.h]: [S_ISDIR(m)] is [((m) & S_IFMT) == S_IFDIR]. *)
Definition S_IFMT : Z := 61440.     (* 0170000 *)
Definition S_IFDIR : Z := 16384.    (* 0040000 *)
Definition S_ISDIR (st_mode : Z) : bool := Z.land st_mode S_IFMT =? S_IFDIR.

Definition endl : string := String (ascii_of_nat 10) "".

Section Host.

(** The state of the file system, and [AbstractSystem::TempType]. *)
Context {FS TempType : Type}.

(** What the program is compiled and run against. *)
Record Host : Type := {
  (* declared in the base class AbstractSystem *)
  TempPrefixAll : string;
  TempPrefixes : TempType -> string;
  TempSuffixes : TempType -> string;
  MaximumMemory : Z;
  (* the target *)
  build : Build;
  size_t_bits : Z;
  wchar_layout : Buf.layout;
  (* the C library; [stat] gives [st_mode] when it returns 0, [opendir]
     the names [readdir] goes through when it is not null, [sysctl] its
     return value and the variable it filled *)
  stat : FS -> string -> option Z;
  opendir : FS -> string -> option (list string);
  mkstemps : FS -> string -> Z -> Z * string * FS;
  remove : FS -> string -> Z * FS;
  sysconf : Z -> Z;
  sysctl : list Z -> Z -> Z * Z;
  (* ICU *)
  ucnv_open : string -> UErrorCode -> option handle * UErrorCode;
  unorm2_getNFKCInstance : UErrorCode -> option handle * UErrorCode;
  ucnv_toUChars : option handle -> Z -> string -> Z -> UErrorCode
                  -> Z * UErrorCode * list Z;
  unorm2_normalize : option handle -> list Z -> Z -> Z -> UErrorCode
                     -> Z * UErrorCode * list Z;
  u_errorName : UErrorCode -> string;
  fromUTF8 : string -> list Z    (* the units of icu::UnicodeString::fromUTF8 *)
}.

(** The data members. *)
Record object : Type := {
  mConverter : option handle;
  mNormalizer : option handle;
  mErrorReported : bool
}.

(** The process: the object, what was written to [std::cerr], the
    environment, the file system, and the ICU calls made so far. *)
Record world : Type := {
  this : object;
  cerr : string;
  env : string -> option string;
  fs : FS;
  icu_calls : list report
}.

(** A member function: it ends with an outcome and leaves a world. *)
Definition M (A : Type) : Type := world -> outcome A * world.

Definition ret {A : Type} (a : A) : M A := fun w => (Returned a, w).

Definition bind {A B : Type} (m : M A) (k : A -> M B) : M B :=
  fun w =>
    match m w with
    | (Returned a, w') => k a w'
    | (Thrown e, w') => (Thrown e, w')
    | (Exited s, w') => (Exited s, w')
    | (Undefined, w') => (Undefined, w')
    | (OutOfFuel, w') => (OutOfFuel, w')
    end.

Local Notation "x <- m ;; k" := (bind m (fun x => k))
  (at level 61, m at next level, right associativity).

Local Notation "' pat <- m ;; k" := (bind m (fun x => match x with pat => k end))
  (at level 61, pat pattern, m at next level, right associativity).

Definition get : M world := fun w => (Returned w, w).

Definition put_cerr (text : string) : M unit := fun w =>
  (Returned tt,
   {| this := this w; cerr := cerr w ++ text; env := env w; fs := fs w;
      icu_calls := icu_calls w |}).

Definition put_this (o : object) : M unit := fun w =>
  (Returned tt,
   {| this := o; cerr := cerr w; env := env w; fs := fs w;
      icu_calls := icu_calls w |}).

Definition put_fs (f : FS) : M unit := fun w =>
  (Returned tt,
   {| this := this w; cerr := cerr w; env := env w; fs := f;
      icu_calls := icu_calls w |}).

(** A conversion loop run inside a member function: its calls are logged. *)
Definition logged {A : Type} (r : outcome A * list report) : M A := fun w =>
  (fst r,
   {| this := this w; cerr := cerr w; env := env w; fs := fs w;
      icu_calls := (icu_calls w ++ snd r)%list |}).

Definition exit {A : Type} (status : Z) : M A := fun w => (Exited status, w).

Definition lift {A : Type} (o : outcome A) : M A := fun w => (o, w).

(** [PosixSystem::PosixSystem()] *)
Definition PosixSystem_new : object :=
  {| mConverter := None; mNormalizer := None; mErrorReported := false |}.

Variable H : Host.

Definition clearAndCR : M unit :=
  let EraseEndofLine := String (ascii_of_nat 27) "[K" in
  put_cerr (EraseEndofLine ++ String (ascii_of_nat 13) "").

Definition catastrophicError (what : string) : M unit :=
  _ <- put_cerr (endl ++ endl ++ "Unexpected error: " ++ what ++ endl) ;;
  exit 33.

(** The test of the three [if]s:
    [!tmpenv || stat(tmpenv, &sb) || !S_ISDIR(sb.st_mode)]. *)
Definition rejected (w : world) (tmpenv : option string) : bool :=
  match tmpenv with
  | None => true
  | Some path =>
      match stat H (fs w) path with
      | None => true
      | Some st_mode => negb (S_ISDIR st_mode)
      end
  end.

Definition tempFileDirectory (w : world) : string :=
  let tmpenv := env w "TMPDIR" in
  let tmpenv := if rejected w tmpenv then env w "TEMP" else tmpenv in
  let tmpenv := if rejected w tmpenv then env w "TMP" else tmpenv in
  let tmpenv := if rejected w tmpenv then Some "/tmp/" else tmpenv in
  match tmpenv with
  | Some path => path
  | None => "/tmp/"              (* not reached: a null pointer is rejected *)
  end.

(** [if (t.back() != '/') t.push_back('/')] *)
Definition with_separator (t : string) : string :=
  if match Str.back t with
     | Some c => negb (Ascii.eqb c Str.slash)
     | None => true
     end
  then t ++ "/" else t.

Definition tempFileForWrite (tt : TempType) (nameOut : string)
    : M (option fdostream * string) :=
  w <- get ;;
  let t := tempFileDirectory w in
  let t := with_separator t in
  let t := t ++ TempPrefixes H tt in
  let t := t ++ "XXXXXX" in
  let t := t ++ TempSuffixes H tt in
  let f : option fdostream := None in
  let '(tfd, b, fs') :=
    mkstemps H (fs w) t (to_int32 (Z.of_nat (String.length (TempSuffixes H tt)))) in
  _ <- put_fs fs' ;;
  if negb (tfd =? -1) then ret (Some (mk_fdostream tfd), b)
  else ret (f, nameOut).

Definition relativeFilePath (base rel : string) : outcome string :=
  let s := base in
  match Str.rfind s Str.slash with
  | None => Returned rel
  | Some i =>
      let i := (i + 1)%nat in
      Str.replace s i (String.length s - i) rel
  end.

Definition deleteTempFile (name : string) : M Z :=
  w <- get ;;
  let '(r, fs') := remove H (fs w) name in
  _ <- put_fs fs' ;;
  ret r.

Definition findTempFiles (w : world) : list string :=
  let ret : list string := [] in
  let dirname := tempFileDirectory w in
  let len := String.length (TempPrefixAll H) in
  match opendir H (fs w) dirname with
  | None => ret
  | Some entries =>
      fold_left (fun ret d_name =>
        if Str.strncmp (TempPrefixAll H) d_name len =? 0
        then (ret ++ [(with_separator dirname ++ d_name)%string])%list
        else ret) entries ret
  end.

(** The [#ifndef NOSYSCTL] block at the head of the file. *)
Definition nosysctl (b : Build) : bool :=
  def_NOSYSCTL b || def_GNU b || (def_ILP32 b && def_x86_64 b).

(** [if (size > MaximumMemory) size = MaximumMemory;
     return static_cast<std::size_t>(size);] *)
Definition clamped (size : Z) : Z :=
  let size := if MaximumMemory H <? size then MaximumMemory H else size in
  to_unsigned (size_t_bits H) size.

(** The [#if defined(HW_MEMSIZE) ... #elif ...] chain: [mib[1]] and the
    width of [size], or nothing. *)
Definition hw_query (b : Build) : option (Z * Z) :=
  match HW_MEMSIZE b, HW_PHYSMEM64 b, HW_REALMEM b, HW_PHYSMEM b with
  | Some name, _, _, _ => Some (name, 64)
  | None, Some name, _, _ => Some (name, 64)
  | None, None, Some name, _ => Some (name, 32)
  | None, None, None, Some name => Some (name, 32)
  | None, None, None, None => None
  end.

Definition getPhysicalMemory : Z :=
  let b := build H in
  if nosysctl b then 0
  else if def_linux b then
    match SC_PHYS_PAGES b, SC_PAGESIZE b with
    | Some phys_pages, Some pagesize =>
        let size :=
          to_uint64 (to_uint64 (sysconf H phys_pages)
                     * to_uint64 (sysconf H pagesize)) in
        clamped size
    | _, _ => 0
    end
  else
    match CTL_HW b with
    | None => 0
    | Some ctl_hw =>
        match hw_query b with
        | None => 0
        | Some (name, bits) =>
            let '(r, size) := sysctl H [ctl_hw; name] (bits / 8) in
            if r =? 0 then clamped (to_unsigned bits size) else 0
        end
    end.

(** [normalize] as compiled with NONORMALIZE: the UTF-16 units of the
    name, one to each wide character.
<<
    icu::UnicodeString ustr = icu::UnicodeString::fromUTF8(...);
    std::wstring wstr(ustr.length(), L' ');
    for (int32_t i = 0; i < ustr.length(); ++i)
        wstr[i] = ustr.charAt(i);
>>
    [charAt] is 0xffff off the end. *)
Definition normalize_NONORMALIZE (u8name : string) : list Z :=
  let ustr := fromUTF8 H u8name in
  map (fun i => nth i ustr 65535) (seq 0 (List.length ustr)).

(** The call the first loop of [normalize] repeats:
    [ucnv_toUChars(mConverter, &u16name[0], capacity, u8name.data(),
                   static_cast<int32_t>(u8name.length()), &status)]. *)
Definition decode_call (conv : option handle) (u8name : string) : transform :=
  fun capacity status =>
    ucnv_toUChars H conv capacity u8name
      (to_int32 (Z.of_nat (String.length u8name))) status.

(** The call the second loop repeats:
    [unorm2_normalize(mNormalizer, u16name.data(),
                      static_cast<int32_t>(u16name.length()),
                      dest, capacity, &status)]. *)
Definition nfkc_call (norm : option handle) (u16name : list Z) : transform :=
  fun capacity status =>
    unorm2_normalize H norm u16name
      (to_int32 (Z.of_nat (List.length u16name))) capacity status.

Definition loop : Type :=
  nat -> UErrorCode -> list Z -> outcome (UErrorCode * list Z) * list report.

(** The first loop of [normalize]: UTF-8 to UTF-16 into [u16name]. *)
Definition decode_loop (conv : option handle) (u8name : string) : loop :=
  Growth.grow Buf.Units16 (decode_call conv u8name).

(** The second loop: NFKC of [u16name] into the wide string [ret]. *)
Definition nfkc_loop (norm : option handle) (u16name : list Z) : loop :=
  Growth.grow (wchar_layout H) (nfkc_call norm u16name).

(** The two loops, each with the layout of its buffer and its call. *)
Inductive loop_of_normalize : Buf.layout -> transform -> loop -> Prop :=
| utf8_to_utf16 (conv : option handle) (u8name : string) :
    loop_of_normalize Buf.Units16 (decode_call conv u8name)
                      (decode_loop conv u8name)
| nfkc_of_utf16 (norm : option handle) (u16name : list Z) :
    loop_of_normalize (wchar_layout H) (nfkc_call norm u16name)
                      (nfkc_loop norm u16name).

(** [normalize], up to its first comment's end: "Setup ICU library
    items".  It leaves the two engines and [status]. *)
Definition setup_icu : M (option handle * option handle * UErrorCode) :=
  let status := U_ZERO_ERROR in
  w <- get ;;
  let '(conv, status) :=
    match mConverter (this w) with
    | None => ucnv_open H "utf-8" status
    | Some c => (Some c, status)
    end in
  _ <- put_this {| mConverter := conv; mNormalizer := mNormalizer (this w);
                   mErrorReported := mErrorReported (this w) |} ;;
  _ <- (if U_FAILURE status then catastrophicError "No Converter" else ret tt) ;;
  let '(norm, status) :=
    match mNormalizer (this w) with
    | None => unorm2_getNFKCInstance H status
    | Some n => (Some n, status)
    end in
  _ <- put_this {| mConverter := conv; mNormalizer := norm;
                   mErrorReported := mErrorReported (this w) |} ;;
  _ <- (if U_FAILURE status
        then _ <- put_cerr ("Error getting NFKC normalizer: "
                            ++ u_errorName H status ++ endl) ;;
             catastrophicError "No Normalizer"
        else ret tt) ;;
  ret (conv, norm, status).

Definition normalize (fuel : nat) (u8name : string) : M (list Z) :=
  ' (conv, norm, status) <- setup_icu ;;
  (* Convert from utf-8 to utf-16 *)
  let u16name := repeat 32 (String.length u8name) in
  ' (status, u16name) <- logged (decode_loop conv u8name fuel status u16name) ;;
  (* NFKC normalize utf-16 text *)
  let ret_ := repeat 32 (List.length u16name) in
  ' (_, ret_) <- logged (nfkc_loop norm u16name fuel status ret_) ;;
  ret ret_.

(** The member functions as requests. *)
Inductive operation : Type :=
| ClearAndCR
| CatastrophicError (what : string)
| TempFileDirectory
| TempFileForWrite (kind : TempType) (nameOut : string)
| RelativeFilePath (base rel : string)
| DeleteTempFile (name : string)
| FindTempFiles
| GetPhysicalMemory
| Normalize (u8name : string).

Definition result (op : operation) : Type :=
  match op with
  | ClearAndCR | CatastrophicError _ => unit
  | TempFileDirectory | RelativeFilePath _ _ => string
  | TempFileForWrite _ _ => (option fdostream * string)%type
  | DeleteTempFile _ | GetPhysicalMemory => Z
  | FindTempFiles => list string
  | Normalize _ => list Z
  end.

Definition run (fuel : nat) (op : operation) : M (result op) :=
  match op return M (result op) with
  | ClearAndCR => clearAndCR
  | CatastrophicError what => catastrophicError what
  | TempFileDirectory => w <- get ;; ret (tempFileDirectory w)
  | TempFileForWrite kind nameOut => tempFileForWrite kind nameOut
  | RelativeFilePath base rel => lift (relativeFilePath base rel)
  | DeleteTempFile name => deleteTempFile name
  | FindTempFiles => w <- get ;; ret (findTempFiles w)
  | GetPhysicalMemory => ret getPhysicalMemory
  | Normalize u8name => normalize fuel u8name
  end.

End Host.

Arguments Host : clear implicits.
Arguments world : clear implicits.
Arguments operation : clear implicits.
Arguments M : clear implicits.

End PosixSystem.

(** ** The rules of the design document *)

Module Design.
Import PosixSystem.

Section Rules.
Context {FS TempType : Type}.
Variable H : Host FS TempType.

(** "accept the first candidate that exists and is a directory": the
    variable is set, [stat] succeeds on its value, and the value names a
    directory. *)
Definition candidate (w : world FS) (variable : string) : option string :=
  match env w variable with
  | None => None
  | Some path =>
      match stat H (fs w) path with
      | Some st_mode => if S_ISDIR st_mode then Some path else None
      | None => None
      end
  end.

(** "Evaluate, in order: TMPDIR, TEMP, TMP environment variables;
    accept the first candidate ...; otherwise return the fixed fallback
    /tmp/." *)
Definition tempDirectory (w : world FS) : string :=
  match candidate w "TMPDIR", candidate w "TEMP", candidate w "TMP" with
  | Some path, _, _ => path
  | None, Some path, _ => path
  | None, None, Some path => path
  | None, None, None => "/tmp/"
  end.

(** "every entry whose name begins with the shared registry-wide
    marker, qualified with the directory path", [separator] standing
    between the two. *)
Definition findAll (w : world FS) (separator : string) : list string :=
  match opendir H (fs w) (tempDirectory w) with
  | None => []
  | Some entries =>
      map (fun name => tempDirectory w ++ separator ++ name)
          (filter (String.prefix (TempPrefixAll H)) entries)
  end.

End Rules.
End Design.

(** ** Hosts to run the program on *)

Module Demo.
Import ICU PosixSystem.
Local Open Scope list_scope.

Definition units (s : string) : list Z :=
  map (fun c => Z.of_nat (nat_of_ascii c)) (list_ascii_of_string s).

(** ICU's way of handing over a result of [n] units: the full length is
    returned; with [n < capacity] the units and a NUL are stored, with
    [n = capacity] the units alone (U_STRING_NOT_TERMINATED_WARNING,
    -124), and with [n > capacity] what fits (U_BUFFER_OVERFLOW_ERROR). *)
Definition hand_over (result : list Z) (capacity : Z) (status : UErrorCode)
    : Z * UErrorCode * list Z :=
  let n := Z.of_nat (List.length result) in
  if n <? capacity then (n, status, result ++ [0])
  else if n =? capacity then (n, -124, result)
  else (n, U_BUFFER_OVERFLOW_ERROR, firstn (Z.to_nat capacity) result).

(** A call that starts from a clean status each time. *)
Definition fresh (result : list Z) : transform :=
  fun capacity _ => hand_over result capacity U_ZERO_ERROR.

(** A call that, as ICU's functions do, returns 0 at once when the
    incoming status is a failure. *)
Definition guarded (result : list Z) : transform :=
  fun capacity status =>
    if U_FAILURE status then (0, status, []) else hand_over result capacity status.

(** A call that fails with U_INVALID_CHAR_FOUND (10). *)
Definition failing : transform := fun _ _ => (0, 10, []).

(** A call that asks for one unit more than it is offered, every time. *)
Definition insatiable : transform :=
  fun capacity _ => (capacity, U_BUFFER_OVERFLOW_ERROR, []).

(** Each unit twice: a normalization that lengthens its input. *)
Definition twice (us : list Z) : list Z := flat_map (fun u => [u; u]) us.

Definition no_symbols : Build :=
  {| def_NOSYSCTL := false; def_GNU := false; def_ILP32 := false;
     def_x86_64 := false; def_linux := false;
     SC_PHYS_PAGES := None; SC_PAGESIZE := None; CTL_HW := None;
     HW_MEMSIZE := None; HW_PHYSMEM64 := None; HW_REALMEM := None;
     HW_PHYSMEM := None |}.

(** Linux with glibc: [_SC_PHYS_PAGES] is 85, [_SC_PAGESIZE] is 30. *)
Definition linux : Build :=
  {| def_NOSYSCTL := false; def_GNU := false; def_ILP32 := false;
     def_x86_64 := true; def_linux := true;
     SC_PHYS_PAGES := Some 85; SC_PAGESIZE := Some 30; CTL_HW := None;
     HW_MEMSIZE := None; HW_PHYSMEM64 := None; HW_REALMEM := None;
     HW_PHYSMEM := None |}.

(** The temporary files of this host are kinds [false] and [true]; its
    file system has the directories /var/tmp and /tmp, and /var/tmp
    holds three entries.  [tfd] is what [mkstemps] returns, [pages] what
    [sysconf(_SC_PHYS_PAGES)] returns, [open_status] the status
    [ucnv_open] leaves, [nfkc_status] the status
    [unorm2_getNFKCInstance] leaves, [lay] how a wide string takes
    UTF-16 units. *)
Definition host (lay : Buf.layout) (b : Build) (pages : Z) (tfd : Z)
    (open_status nfkc_status : UErrorCode)
    (toUChars : string -> transform) (normalize : list Z -> transform)
    : Host unit bool :=
  {| TempPrefixAll := "cfdg_temp_";
     TempPrefixes := fun kind : bool => if kind then "cfdg_temp_fin_" else "cfdg_temp_unfin_";
     TempSuffixes := fun kind : bool => if kind then ".tmp" else "";
     MaximumMemory := 2 ^ 33;
     build := b;
     size_t_bits := 64;
     wchar_layout := lay;
     stat := fun (_ : unit) path =>
       if (path =? "/var/tmp")%string then Some 17407        (* 041777 *)
       else if (path =? "/tmp/")%string then Some 17407
       else if (path =? "/etc/passwd")%string then Some 33188 (* 0100644 *)
       else None;
     opendir := fun (_ : unit) path =>
       if (path =? "/var/tmp")%string
       then Some ["."; ".."; "cfdg_temp_fin_a1b2c3.tmp"; "notes.txt"; "cfdg_temp_unfin_Zz09Qq"]%string
       else None;
     mkstemps := fun (_ : unit) template _ =>
       (tfd, if tfd =? -1 then template else "/var/tmp/cfdg_temp_fin_a1b2c3.tmp"%string, tt);
     remove := fun (_ : unit) _ => (0, tt);
     sysconf := fun name => if name =? 85 then pages else 4096;
     sysctl := fun _ _ => (-1, 0);
     ucnv_open := fun _ _ =>
       (if U_FAILURE open_status then None else Some 1, open_status);
     unorm2_getNFKCInstance := fun _ =>
       (if U_FAILURE nfkc_status then None else Some 2, nfkc_status);
     ucnv_toUChars := fun _ capacity src _ status => toUChars src capacity status;
     unorm2_normalize := fun _ src _ capacity status => normalize src capacity status;
     u_errorName := fun _ => "U_MISSING_RESOURCE_ERROR"%string;
     fromUTF8 := units |}.

(** A process that has just constructed its [PosixSystem]. *)
Definition start (environment : string -> option string) : world unit :=
  {| this := PosixSystem_new; cerr := ""; env := environment; fs := tt;
     icu_calls := [] |}.

Definition env_var_tmp : string -> option string :=
  fun name => if (name =? "TMPDIR")%string then Some "/var/tmp"%string else None.

(** ASCII text converted unit by unit; a normalization that doubles it. *)
Definition lengthening : Host unit bool :=
  host Buf.Wide32LE linux 1000000 5 0 0 (fun src => fresh (units src)) (fun src => fresh (twice src)).

(** The same with ICU's guard on the incoming status. *)
Definition lengthening_guarded : Host unit bool :=
  host Buf.Wide32LE linux 1000000 5 0 0 (fun src => guarded (units src)) (fun src => guarded (twice src)).

(** A converter that rejects its input. *)
Definition invalid_input : Host unit bool :=
  host Buf.Wide32LE linux 1000000 5 0 0 (fun _ => failing) (fun src => fresh src).

(** A normalization that is never satisfied. *)
Definition never_enough : Host unit bool :=
  host Buf.Wide32LE linux 1000000 5 0 0 (fun src => fresh (units src)) (fun _ => insatiable).

(** [ucnv_open] fails with U_MISSING_RESOURCE_ERROR (2); so does
    [unorm2_getNFKCInstance] on the second host. *)
Definition no_converter : Host unit bool :=
  host Buf.Wide32LE linux 1000000 5 2 0 (fun src => fresh (units src)) (fun src => fresh src).

Definition no_normalizer : Host unit bool :=
  host Buf.Wide32LE linux 1000000 5 0 2 (fun src => fresh (units src)) (fun src => fresh src).

(** ASCII text converted unit by unit and left as it is by the
    normalization, as ICU does with ASCII; [wchar_t] has 32 bits on the
    first host and 16 on the second. *)
Definition plain : Host unit bool :=
  host Buf.Wide32LE linux 1000000 5 0 0
       (fun src => guarded (units src)) (fun src => guarded src).

Definition plain16 : Host unit bool :=
  host Buf.Units16 linux 1000000 5 0 0
       (fun src => guarded (units src)) (fun src => guarded src).

(** [sysconf(_SC_PHYS_PAGES)] fails. *)
Definition sysconf_fails : Host unit bool :=
  host Buf.Wide32LE linux (-1) 5 0 0 (fun src => fresh (units src)) (fun src => fresh src).

(** FreeBSD: [CTL_HW] is 6, [HW_REALMEM] 12 and [HW_PHYSMEM] 5; the
    query fills an [unsigned int]. *)
Definition freebsd : Build :=
  {| def_NOSYSCTL := false; def_GNU := false; def_ILP32 := false;
     def_x86_64 := true; def_linux := false;
     SC_PHYS_PAGES := None; SC_PAGESIZE := None; CTL_HW := Some 6;
     HW_MEMSIZE := None; HW_PHYSMEM64 := None; HW_REALMEM := Some 12;
     HW_PHYSMEM := Some 5 |}.

(** The host [plain] built for [b], where [sysctl] succeeds and fills
    in [size]. *)
Definition with_sysctl (b : Build) (size : Z) : Host unit bool :=
  {| TempPrefixAll := TempPrefixAll plain;
     TempPrefixes := TempPrefixes plain;
     TempSuffixes := TempSuffixes plain;
     MaximumMemory := MaximumMemory plain;
     build := b;
     size_t_bits := size_t_bits plain;
     wchar_layout := wchar_layout plain;
     stat := stat plain;
     opendir := opendir plain;
     mkstemps := mkstemps plain;
     remove := remove plain;
     sysconf := sysconf plain;
     sysctl := fun _ _ => (0, size);
     ucnv_open := ucnv_open plain;
     unorm2_getNFKCInstance := unorm2_getNFKCInstance plain;
     ucnv_toUChars := ucnv_toUChars plain;
     unorm2_normalize := unorm2_normalize plain;
     u_errorName := u_errorName plain;
     fromUTF8 := fromUTF8 plain |}.

(** The name of a file without its directories. *)
Definition basename (path : string) : string :=
  match Str.rfind path Str.slash with
  | Some i => Str.drop (S i) path
  | None => path
  end.

(** [mkstemps] with one name to try: the six X before the suffix of [n]
    characters become a1b2c3. *)
Definition fill (template : string) (n : Z) : string :=
  let k := (String.length template - Z.to_nat n - 6)%nat in
  (Str.take k template ++ "a1b2c3" ++ Str.drop (k + 6) template)%string.

(** The host [plain] over a file system that is the list of the files
    in /var/tmp: [mkstemps] creates the file it names unless it exists
    (EEXIST), [remove] deletes the one it is given. *)
Definition disk : Host (list string) bool :=
  {| TempPrefixAll := TempPrefixAll plain;
     TempPrefixes := TempPrefixes plain;
     TempSuffixes := TempSuffixes plain;
     MaximumMemory := MaximumMemory plain;
     build := build plain;
     size_t_bits := size_t_bits plain;
     wchar_layout := wchar_layout plain;
     stat := fun (_ : list string) path => stat plain tt path;
     opendir := fun (files : list string) path =>
       if (path =? "/var/tmp")%string
       then Some ("."%string :: ".."%string :: files) else None;
     mkstemps := fun (files : list string) template n =>
       let name := fill template n in
       if existsb (String.eqb (basename name)) files
       then (-1, template, files)
       else (5, name, files ++ [basename name]);
     remove := fun (files : list string) path =>
       if existsb (String.eqb (basename path)) files
       then (0, filter (fun file => negb (file =? basename path)%string) files)
       else (-1, files);
     sysconf := sysconf plain;
     sysctl := sysctl plain;
     ucnv_open := ucnv_open plain;
     unorm2_getNFKCInstance := unorm2_getNFKCInstance plain;
     ucnv_toUChars := ucnv_toUChars plain;
     unorm2_normalize := unorm2_normalize plain;
     u_errorName := u_errorName plain;
     fromUTF8 := fromUTF8 plain |}.

(** A process on [disk] with these files in /var/tmp. *)
Definition start_on (files : list string) : world (list string) :=
  {| this := PosixSystem_new; cerr := ""; env := env_var_tmp; fs := files;
     icu_calls := [] |}.

End Demo.

(** ** TrackPoint (src-cs/CppWrapper/TrackPoint.cpp) *)

Module Win.
Local Open Scope list_scope.

(** windef.h and wingdi.h: [LOBYTE(w)] is [(BYTE)(w & 0xff)],
    [GetRValue(rgb)] is [LOBYTE(rgb)], [GetGValue(rgb)] is
    [LOBYTE(((WORD)(rgb)) >> 8)], [GetBValue(rgb)] is
    [LOBYTE((rgb) >> 16)]. *)
Definition LOBYTE (w : Z) : Z := Z.land w 255.
Definition GetRValue (rgb : Z) : Z := LOBYTE rgb.
Definition GetGValue (rgb : Z) : Z := LOBYTE (Z.shiftr (to_unsigned 16 rgb) 8).
Definition GetBValue (rgb : Z) : Z := LOBYTE (Z.shiftr rgb 16).

(** What [GetPixel] returns for a point outside the clipping region. *)
Definition CLR_INVALID : Z := 4294967295.

(** The desktop: where the cursor is, the handle [GetDC(NULL)] gives,
    and the colour [GetPixel] reads through a handle at a point. *)
Record Desktop : Type := {
  GetCursorPos : Z * Z;
  GetDC : Z;
  GetPixel : Z -> Z -> Z -> Z
}.

(** [ReleaseDC]: the handle is no longer held. *)
Fixpoint release (h : Z) (held : list Z) : list Z :=
  match held with
  | [] => []
  | h' :: rest => if h' =? h then rest else h' :: release h rest
  end.

(** [TrackPoint()], with the device contexts the process holds. *)
Definition TrackPoint (D : Desktop) (held : list Z) : Z * list Z :=
  let p := GetCursorPos D in
  let h := GetDC D in
  let held := h :: held in
  let c := to_unsigned 32 (GetPixel D h (fst p) (snd p)) in
  let held := release h held in
  (Z.lor (Z.lor (Z.lor 4278190080 (Z.shiftl (GetRValue c) 16))
                (Z.shiftl (GetGValue c) 8))
         (GetBValue c),
   held).

(** A desktop that shows one colour everywhere. *)
Definition screen (colour : Z) : Desktop :=
  {| GetCursorPos := (640, 400); GetDC := 7; GetPixel := fun _ _ _ => colour |}.

End Win.

(** ** Calls in a row *)

Module Calls.
Import ICU PosixSystem.

Section Calls.
Context {FS TempType : Type}.
Variable H : Host FS TempType.

(** The process after a list of calls, each with the turns its loops
    may take; the caller catches what is thrown, and nothing follows an
    exit. *)
Fixpoint after (calls : list (nat * operation TempType)) (w : world FS)
    : world FS :=
  match calls with
  | nil => w
  | (fuel, op) :: rest =>
      match run H fuel op w with
      | (Exited _, w') => w'
      | (_, w') => after rest w'
      end
  end.

(** ICU's functions return at once, with length 0 and nothing stored,
    when the status they are handed is a failure. *)
Definition guards_status : Prop :=
  (forall conv capacity src n status,
      U_FAILURE status = true ->
      ucnv_toUChars H conv capacity src n status = (0, status, nil))
  /\ (forall norm src n capacity status,
      U_FAILURE status = true ->
      unorm2_normalize H norm src n capacity status = (0, status, nil)).

(** What the member functions leave as it was between two states of
    the process: the error flag and the environment are the same, what
    was written to [std::cerr] and the calls made are still there, and
    an engine once constructed is still the object's. *)
Definition carried_over (w w' : world FS) : Prop :=
  mErrorReported (this w') = mErrorReported (this w)
  /\ env w' = env w
  /\ (exists text, cerr w' = (cerr w ++ text)%string)
  /\ (exists calls, icu_calls w' = (icu_calls w ++ calls)%list)
  /\ (forall c, mConverter (this w) = Some c -> mConverter (this w') = Some c)
  /\ (forall n, mNormalizer (this w) = Some n -> mNormalizer (this w') = Some n).

End Calls.
End Calls.

(** * Properties *)

Import Str ICU Growth PosixSystem.

(** ** Integers and strings *)

Lemma to_int32_small z : - 2 ^ 31 <= z <= INT32_MAX -> to_int32 z = z.
Proof.
  unfold to_int32, INT32_MAX. intros Hz.
  rewrite Z.mod_small; lia.
Qed.

Lemma to_unsigned_small bits z : 0 <= z < 2 ^ bits -> to_unsigned bits z = z.
Proof. intros Hz. unfold to_unsigned. now apply Z.mod_small. Qed.

Lemma append_nil_r s : s ++ "" = s.
Proof. induction s as [|c s IH]; simpl; [reflexivity | now rewrite IH]. Qed.

Lemma append_assoc a b c : (a ++ b) ++ c = a ++ (b ++ c).
Proof. induction a as [|x a IH]; simpl; [reflexivity | now rewrite IH]. Qed.

Lemma length_append a b :
  String.length (a ++ b) = (String.length a + String.length b)%nat.
Proof. induction a as [|x a IH]; simpl; [reflexivity | now rewrite IH]. Qed.

Lemma take_append a b n :
  take (String.length a + n) (a ++ b) = a ++ take n b.
Proof. induction a as [|x a IH]; simpl; [reflexivity | now rewrite IH]. Qed.

Lemma take_all s : take (String.length s) s = s.
Proof. induction s as [|c s IH]; simpl; [reflexivity | now rewrite IH]. Qed.

Lemma drop_all s : drop (String.length s) s = "".
Proof. induction s as [|c s IH]; simpl; [reflexivity | exact IH]. Qed.

Lemma rfind_None s c : rfind s c = None <-> occurs c s = false.
Proof.
  induction s as [|d r IH]; simpl; [tauto|].
  destruct (rfind r c) as [i|].
  - split; [discriminate|].
    intros H. apply orb_false_elim in H as [_ H].
    apply IH in H. discriminate.
  - destruct IH as [IH _]. rewrite (IH eq_refl), orb_false_r.
    destruct (Ascii.eqb d c); split; congruence.
Qed.

(** The index [rfind] returns splits the string at its last [c]. *)
Lemma rfind_Some s c i :
  rfind s c = Some i ->
  exists pre post,
    s = pre ++ String c post /\ String.length pre = i /\ occurs c post = false.
Proof.
  revert i. induction s as [|d r IH]; simpl; intros i H; [discriminate|].
  destruct (rfind r c) as [j|] eqn:E.
  - injection H as <-.
    destruct (IH j eq_refl) as (pre & post & -> & Hlen & Hocc).
    exists (String d pre), post. simpl. now rewrite Hlen.
  - destruct (Ascii.eqb d c) eqn:Edc; [|discriminate].
    injection H as <-. apply Ascii.eqb_eq in Edc as ->.
    exists "", r. simpl. repeat split. now apply rfind_None.
Qed.

Lemma strncmp_prefix p s :
  (strncmp p s (String.length p) =? 0) = String.prefix p s.
Proof.
  revert s. induction p as [|c p IH]; intros s.
  - now destruct s.
  - destruct s as [|d s]; [reflexivity|].
    cbn [strncmp String.length prefix].
    destruct (Ascii.eqb c d) eqn:E.
    + apply Ascii.eqb_eq in E as ->.
      destruct (ascii_dec d d) as [_|N]; [apply IH | now elim N].
    + destruct (ascii_dec c d) as [->|_].
      * rewrite Ascii.eqb_refl in E. discriminate.
      * now destruct (nat_of_ascii c <? nat_of_ascii d)%nat.
Qed.

(** [back] sees the last character of a string that has one. *)
Lemma back_append s c : back (s ++ String c "") = Some c.
Proof.
  induction s as [|d s IH]; [reflexivity|].
  cbn [append back]. rewrite IH.
  destruct (s ++ String c "") eqn:E; [|reflexivity].
  destruct s; discriminate.
Qed.

Lemma back_Some s c : back s = Some c -> exists pre, s = pre ++ String c "".
Proof.
  induction s as [|d s IH]; [discriminate|].
  destruct s as [|e s].
  - simpl. intros [= ->]. now exists "".
  - intros Hb. destruct (IH Hb) as [pre Hpre].
    exists (String d pre). simpl. now rewrite <- Hpre.
Qed.

(** ** relativeFilePath *)

(** Replacing, in [dir ++ "/" ++ file], everything from just after
    [dir ++ "/"] to the end: the position is within the string, nothing
    is thrown. *)
Lemma replace_after_slash (dir file rel : string) :
  let s := dir ++ String slash file in
  let i := (String.length dir + 1)%nat in
  replace s i (String.length s - i) rel = Returned (dir ++ "/" ++ rel).
Proof.
  cbv zeta. unfold replace.
  rewrite !length_append. cbn [String.length].
  replace (String.length dir + S (String.length file)
           <? String.length dir + 1)%nat with false
    by (symmetry; apply Nat.ltb_ge; lia).
  replace (String.length dir + 1 +
           Nat.min (String.length dir + S (String.length file)
                    - (String.length dir + 1))
                   (String.length dir + S (String.length file)
                    - (String.length dir + 1)))%nat
    with (String.length (dir ++ String slash file))
    by (rewrite length_append; cbn [String.length]; lia).
  rewrite drop_all, append_nil_r, take_append.
  cbn [take]. now rewrite append_assoc.
Qed.

Lemma relativeFilePath_returns (base rel : string) :
  exists s, relativeFilePath base rel = Returned s.
Proof.
  unfold relativeFilePath.
  destruct (rfind base slash) as [i|] eqn:E; [|now exists rel].
  destruct (rfind_Some _ _ _ E) as (dir & file & -> & <- & _).
  eexists. apply replace_after_slash.
Qed.

(** C10.  [relativeFilePath base rel] is [rel] when [base] has no ['/'];
    otherwise [base] splits at its last ['/'] into [dir ++ "/" ++ file]
    ([file] without ['/']) and the result is [dir ++ "/" ++ rel]: the part
    of [base] up to and including the last ['/'], then [rel].  No
    exception is raised.  The function works on the copy [s]; its
    arguments are values here, as they are [const] references there. *)
Theorem relativeFilePath_replaces_after_last_slash (base rel : string) :
  (occurs slash base = false /\ relativeFilePath base rel = Returned rel)
  \/ (exists dir file,
        base = dir ++ "/" ++ file /\ occurs slash file = false /\
        relativeFilePath base rel = Returned (dir ++ "/" ++ rel)).
Proof.
  unfold relativeFilePath.
  destruct (rfind base slash) as [i|] eqn:E.
  - right. destruct (rfind_Some _ _ _ E) as (dir & file & -> & <- & Hocc).
    exists dir, file. repeat split; trivial.
    apply replace_after_slash.
  - left. split; [now apply rfind_None | reflexivity].
Qed.

(** ** The temp directory and the temp files *)

Section TempFiles.
Context {FS TempType : Type}.
Variable H : Host FS TempType.

Lemma rejected_candidate (w : world FS) (variable : string) :
  Design.candidate H w variable =
  if rejected H w (env w variable) then None else env w variable.
Proof.
  unfold Design.candidate, rejected.
  destruct (env w variable) as [path|]; [|reflexivity].
  destruct (stat H (fs w) path) as [st_mode|]; [|reflexivity].
  now destruct (S_ISDIR st_mode).
Qed.

(** A pointer the test let through is tested again by the next [if],
    with the same result. *)
Lemma tempFileDirectory_rule (w : world FS) :
  tempFileDirectory H w = Design.tempDirectory H w.
Proof.
  unfold tempFileDirectory, Design.tempDirectory.
  rewrite !rejected_candidate. cbv zeta.
  destruct (rejected H w (env w "TMPDIR")) eqn:R1;
    [destruct (rejected H w (env w "TEMP")) eqn:R2;
     [destruct (rejected H w (env w "TMP")) eqn:R3|]|];
    repeat (cbv iota; rewrite ?R1, ?R2, ?R3); try reflexivity.
  - destruct (env w "TEMP"); [reflexivity | discriminate R2].
  - destruct (env w "TMPDIR"); [reflexivity | discriminate R1].
Qed.

(** C3.  [tempFileDirectory] returns the value of the first of TMPDIR,
    TEMP, TMP that is set and on whose value [stat] succeeds and reports
    a directory, and "/tmp/" when there is none; calling it leaves the
    process - environment, file system, object, output - as it was. *)
Theorem tempFileDirectory_first_candidate (fuel : nat) (w : world FS) :
  tempFileDirectory H w = Design.tempDirectory H w /\
  run H fuel TempFileDirectory w = (Returned (Design.tempDirectory H w), w).
Proof.
  split; [apply tempFileDirectory_rule|].
  cbn. now rewrite tempFileDirectory_rule.
Qed.

(** [stat] fails on the empty path (ENOENT), so the directory is never
    empty and [back()] is applied to a string that has a last character. *)
Lemma tempFileDirectory_not_empty (w : world FS) :
  stat H (fs w) "" = None -> tempFileDirectory H w <> "".
Proof.
  intros Hstat. rewrite tempFileDirectory_rule.
  unfold Design.tempDirectory, Design.candidate.
  assert (Hc : forall variable path,
             match env w variable with
             | Some path =>
                 match stat H (fs w) path with
                 | Some st_mode => if S_ISDIR st_mode then Some path else None
                 | None => None
                 end
             | None => None
             end = Some path -> path <> "").
  { intros variable path.
    destruct (env w variable) as [p|]; [|discriminate].
    destruct (stat H (fs w) p) as [m|] eqn:E; [|discriminate].
    destruct (S_ISDIR m); [|discriminate].
    intros [= <-] ->. congruence. }
  pose proof (Hc "TMPDIR") as H1. pose proof (Hc "TEMP") as H2.
  pose proof (Hc "TMP") as H3.
  destruct (match env w "TMPDIR" with Some _ => _ | None => _ end);
    [now apply H1|].
  destruct (match env w "TEMP" with Some _ => _ | None => _ end);
    [now apply H2|].
  destruct (match env w "TMP" with Some _ => _ | None => _ end);
    [now apply H3 | discriminate].
Qed.

Lemma with_separator_cases (t : string) :
  ((exists pre, t = pre ++ "/") /\ with_separator t = t)
  \/ ((forall pre, t <> pre ++ "/") /\ with_separator t = t ++ "/").
Proof.
  unfold with_separator.
  destruct (back t) as [c|] eqn:B.
  - destruct (Ascii.eqb c slash) eqn:E; cbn [negb].
    + left. apply Ascii.eqb_eq in E as ->.
      split; [now apply back_Some | reflexivity].
    + right. split; [|reflexivity].
      intros pre ->. rewrite back_append in B.
      injection B as <-. now rewrite Ascii.eqb_refl in E.
  - right. split; [|reflexivity].
    intros pre ->. now rewrite back_append in B.
Qed.

Lemma fold_left_collect {A B : Type} (keep : A -> bool) (f : A -> B)
    (entries : list A) (acc : list B) :
  fold_left (fun ret x => if keep x then (ret ++ [f x])%list else ret) entries acc
  = (acc ++ map f (filter keep entries))%list.
Proof.
  revert acc. induction entries as [|x entries IH]; intros acc; cbn [fold_left filter].
  - now rewrite app_nil_r.
  - rewrite IH. destruct (keep x); [|reflexivity].
    cbn [map]. now rewrite <- app_assoc.
Qed.

(** C6.  [findTempFiles] returns, in directory order, the entries of the
    resolved temp directory whose names begin with [TempPrefixAll], each
    as directory, separator, name - the separator being "/" when the
    directory path does not end in ['/'] and empty when it does - and
    the empty vector when [opendir] fails. *)
Theorem findTempFiles_lists_marked_entries (w : world FS) :
  exists separator,
    (((exists pre, Design.tempDirectory H w = pre ++ "/") /\ separator = "")
     \/ ((forall pre, Design.tempDirectory H w <> pre ++ "/") /\ separator = "/"))
    /\ findTempFiles H w = Design.findAll H w separator.
Proof.
  unfold findTempFiles, Design.findAll.
  rewrite tempFileDirectory_rule.
  set (dir := Design.tempDirectory H w).
  assert (Hsep : exists separator,
             (((exists pre, dir = pre ++ "/") /\ separator = "")
              \/ ((forall pre, dir <> pre ++ "/") /\ separator = "/"))
             /\ with_separator dir = dir ++ separator).
  { destruct (with_separator_cases dir) as [[Hends Hsep]|[Hends Hsep]].
    - exists "". split; [now left | now rewrite append_nil_r].
    - exists "/". split; [now right | exact Hsep]. }
  destruct Hsep as (separator & Hcase & Hsep).
  exists separator. split; [exact Hcase|].
  destruct (opendir H (fs w) dir) as [entries|]; [|reflexivity].
  rewrite (fold_left_collect
             (fun d_name => strncmp (TempPrefixAll H) d_name
                              (String.length (TempPrefixAll H)) =? 0)
             (fun d_name => with_separator dir ++ d_name)).
  cbn [app]. rewrite Hsep.
  rewrite (filter_ext _ (prefix (TempPrefixAll H)))
    by (intros a; apply strncmp_prefix).
  apply map_ext. intros name. apply append_assoc.
Qed.

(** C9.  [tempFileForWrite] hands [mkstemps] the template directory,
    separator, prefix, "XXXXXX", suffix.  When [mkstemps] returns -1 the
    stream pointer is null and [nameOut] keeps its value; otherwise the
    pointer holds a stream over the descriptor and [nameOut] is the
    name [mkstemps] wrote into the template. *)
Theorem tempFileForWrite_names_only_on_success
    (kind : TempType) (nameOut : string) (w : world FS)
    (tfd : Z) (name : string) (fs' : FS) :
  mkstemps H (fs w)
    (with_separator (tempFileDirectory H w) ++ TempPrefixes H kind
       ++ "XXXXXX" ++ TempSuffixes H kind)
    (to_int32 (Z.of_nat (String.length (TempSuffixes H kind))))
  = (tfd, name, fs') ->
  (tfd = -1 ->
   fst (tempFileForWrite H kind nameOut w) = Returned (None, nameOut))
  /\ (tfd <> -1 ->
      fst (tempFileForWrite H kind nameOut w)
      = Returned (Some (mk_fdostream tfd), name)).
Proof.
  intros Hmk. unfold tempFileForWrite, bind, get.
  rewrite !append_assoc, Hmk. cbn.
  split; intros Htfd.
  - subst tfd. reflexivity.
  - apply Z.eqb_neq in Htfd. now rewrite Htfd.
Qed.

End TempFiles.

(** On a host where TMPDIR names /var/tmp and [mkstemps] fails,
    [nameOut] keeps "old"; where it returns descriptor 5, [nameOut]
    becomes the created name. *)
Lemma tempFileForWrite_names_only_on_success_witness :
  fst (tempFileForWrite
         (Demo.host Buf.Wide32LE Demo.linux 1 (-1) 0 0 (fun _ => Demo.failing) (fun _ => Demo.failing))
         true "old" (Demo.start Demo.env_var_tmp))
  = Returned (None, "old")
  /\ fst (tempFileForWrite
            (Demo.host Buf.Wide32LE Demo.linux 1 5 0 0 (fun _ => Demo.failing) (fun _ => Demo.failing))
            true "old" (Demo.start Demo.env_var_tmp))
     = Returned (Some (mk_fdostream 5), "/var/tmp/cfdg_temp_fin_a1b2c3.tmp").
Proof.
  split.
  - apply (tempFileForWrite_names_only_on_success
             (Demo.host Buf.Wide32LE Demo.linux 1 (-1) 0 0 (fun _ => Demo.failing) (fun _ => Demo.failing))
             true "old" (Demo.start Demo.env_var_tmp) (-1)
             "/var/tmp/cfdg_temp_fin_XXXXXX.tmp" tt);
      reflexivity.
  - apply (tempFileForWrite_names_only_on_success
             (Demo.host Buf.Wide32LE Demo.linux 1 5 0 0 (fun _ => Demo.failing) (fun _ => Demo.failing))
             true "old" (Demo.start Demo.env_var_tmp) 5
             "/var/tmp/cfdg_temp_fin_a1b2c3.tmp" tt);
      [reflexivity | discriminate].
Defined.

(** ** Buffers *)

Lemma length_join (f : Z -> Z -> Z) (n : nat) :
  forall us, List.length us = (2 * n)%nat -> List.length (Buf.join f us) = n.
Proof.
  induction n as [|n IH]; intros us Hlen.
  - now destruct us.
  - destruct us as [|a [|b r]]; try (cbn in Hlen; lia).
    cbn [Buf.join List.length]. f_equal. apply IH. cbn in Hlen. lia.
Qed.

Lemma length_overwrite (out mem : list Z) :
  List.length (Buf.overwrite out mem) = List.length mem.
Proof.
  unfold Buf.overwrite. rewrite length_firstn, length_app, length_skipn. lia.
Qed.

(** Storing through the pointer does not change the length of the string. *)
Lemma length_store (lay : Buf.layout) (out : list Z) (capacity : Z) (buf : list Z) :
  List.length (Buf.store lay out capacity buf) = List.length buf.
Proof.
  unfold Buf.store. rewrite length_firstn. apply Nat.min_l.
  set (written := firstn (Z.to_nat capacity) out).
  assert (Hunits : forall k,
             (forall w, List.length (Buf.units_of lay w) = k) ->
             List.length (Buf.overwrite written
                            (flat_map (Buf.units_of lay) (buf ++ [0])))
             = (k * (List.length buf + 1))%nat).
  { intros k Hk. rewrite length_overwrite.
    rewrite (flat_map_constant_length (Buf.units_of lay) (buf ++ [0]) (c := k))
      by (intros; apply Hk).
    rewrite length_app. cbn [List.length]. lia. }
  destruct lay; cbn [Buf.elems_of].
  - rewrite (Hunits 1%nat) by reflexivity. lia.
  - rewrite (length_join _ (List.length buf + 1)); [lia|].
    now rewrite (Hunits 2%nat) by reflexivity.
  - rewrite (length_join _ (List.length buf + 1)); [lia|].
    now rewrite (Hunits 2%nat) by reflexivity.
Qed.

Lemma resize_shrink (buf : list Z) (n c : Z) :
  0 <= n <= Z.of_nat (List.length buf) ->
  Buf.resize buf n c = Returned (firstn (Z.to_nat n) buf)
  /\ Z.of_nat (List.length (firstn (Z.to_nat n) buf)) = n.
Proof.
  intros Hn. unfold Buf.resize.
  replace (n <? 0) with false by (symmetry; apply Z.ltb_ge; lia).
  replace (n <=? Z.of_nat (List.length buf)) with true
    by (symmetry; apply Z.leb_le; lia).
  split; [reflexivity|]. rewrite length_firstn. lia.
Qed.

Lemma resize_grow (buf : list Z) (n c : Z) :
  Z.of_nat (List.length buf) < n ->
  Buf.resize buf n c
  = Returned (buf ++ repeat c (Z.to_nat n - List.length buf))%list
  /\ Z.of_nat (List.length (buf ++ repeat c (Z.to_nat n - List.length buf))%list) = n.
Proof.
  intros Hn. unfold Buf.resize.
  replace (n <? 0) with false by (symmetry; apply Z.ltb_ge; lia).
  replace (n <=? Z.of_nat (List.length buf)) with false
    by (symmetry; apply Z.leb_gt; lia).
  split; [reflexivity|]. rewrite length_app, repeat_length. lia.
Qed.

(** [resize] returns a buffer or throws. *)
Lemma resize_outcome (buf : list Z) (n c : Z) :
  Buf.resize buf n c = Thrown std_length_error
  \/ exists b, Buf.resize buf n c = Returned b.
Proof.
  unfold Buf.resize. destruct (n <? 0); [now left|].
  right. destruct (n <=? _); eauto.
Qed.

(** ** The conversion loop *)

(** Closes a goal [o <> o'] whose sides end in different constructors. *)
Ltac other_outcome :=
  let E := fresh "E" in
  intros E; unfold CfdgError_Error in E; cbn in E; discriminate E.

Section Loop.
Variable lay : Buf.layout.
Variable T : transform.

Let report_of (buf : list Z) (sz : Z) (status : UErrorCode) : report :=
  mk_report (to_int32 (Z.of_nat (List.length buf) + 1)) sz status.

(** A failure other than overflow: [CfdgError::Error] is called. *)
Lemma grow_failed fuel status buf sz status' out :
  T (to_int32 (Z.of_nat (List.length buf) + 1)) status = (sz, status', out) ->
  conversion_failed status' = true ->
  Growth.grow lay T (S fuel) status buf
  = (Thrown (CfdgError "String conversion error"), [report_of buf sz status']).
Proof.
  intros HT Hfail. cbn [Growth.grow]. now rewrite HT, Hfail.
Qed.

(** The reported length fits: the buffer is cut to it and the loop ends. *)
Lemma grow_fits fuel status buf sz status' out :
  T (to_int32 (Z.of_nat (List.length buf) + 1)) status = (sz, status', out) ->
  conversion_failed status' = false ->
  Z.of_nat (List.length buf) <= INT32_MAX ->
  0 <= sz <= Z.of_nat (List.length buf) ->
  Growth.grow lay T (S fuel) status buf
  = (Returned (status',
               firstn (Z.to_nat sz)
                 (Buf.store lay out (to_int32 (Z.of_nat (List.length buf) + 1)) buf)),
     [report_of buf sz status']).
Proof.
  intros HT Hfail Hlen Hsz. cbn [Growth.grow]. rewrite HT, Hfail.
  cbn [Growth.and_then]. rewrite length_store.
  rewrite (to_int32_small (Z.of_nat (List.length buf))) by (unfold INT32_MAX in *; lia).
  replace (sz <=? Z.of_nat (List.length buf)) with true
    by (symmetry; apply Z.leb_le; lia).
  destruct (resize_shrink
              (Buf.store lay out (to_int32 (Z.of_nat (List.length buf) + 1)) buf)
              sz 0) as [-> _]; [rewrite length_store; lia|].
  reflexivity.
Qed.

(** The reported length does not fit: the buffer is resized to one more
    than it and the loop goes round again. *)
Lemma grow_again fuel status buf sz status' out :
  T (to_int32 (Z.of_nat (List.length buf) + 1)) status = (sz, status', out) ->
  conversion_failed status' = false ->
  Z.of_nat (List.length buf) <= INT32_MAX ->
  Z.of_nat (List.length buf) < sz < INT32_MAX ->
  let grown :=
    (Buf.store lay out (to_int32 (Z.of_nat (List.length buf) + 1)) buf
     ++ repeat 32 (Z.to_nat (sz + 1) - List.length buf))%list in
  Z.of_nat (List.length grown) = sz + 1
  /\ Growth.grow lay T (S fuel) status buf
     = (fst (Growth.grow lay T fuel status' grown),
        report_of buf sz status' :: snd (Growth.grow lay T fuel status' grown)).
Proof.
  intros HT Hfail Hlen Hsz grown.
  destruct (resize_grow
              (Buf.store lay out (to_int32 (Z.of_nat (List.length buf) + 1)) buf)
              (sz + 1) 32) as [Hres Hgrown]; [rewrite length_store; lia|].
  rewrite length_store in Hres, Hgrown.
  split; [exact Hgrown|].
  cbn [Growth.grow]. rewrite HT, Hfail.
  cbn [Growth.and_then]. rewrite length_store.
  rewrite (to_int32_small (Z.of_nat (List.length buf))) by (unfold INT32_MAX in *; lia).
  replace (sz <=? Z.of_nat (List.length buf)) with false
    by (symmetry; apply Z.leb_gt; lia).
  unfold Growth.succ_int32.
  replace (INT32_MAX <? sz + 1) with false by (symmetry; apply Z.ltb_ge; lia).
  cbn [Growth.and_then]. rewrite Hres. cbn [Growth.and_then].
  fold grown. now destruct (Growth.grow lay T fuel status' grown).
Qed.

(** One turn of the loop, the report of its call put in front. *)
Lemma grow_S fuel status buf :
  Growth.grow lay T (S fuel) status buf =
  let capacity := to_int32 (Z.of_nat (List.length buf) + 1) in
  let '(sz, status', out) := T capacity status in
  let stored := Buf.store lay out capacity buf in
  let rest :=
    and_then (if conversion_failed status'
              then CfdgError_Error "String conversion error"
              else Returned tt) (fun _ =>
    if sz <=? to_int32 (Z.of_nat (List.length stored)) then
      and_then (Buf.resize stored sz 0) (fun b => (Returned (status', b), []))
    else
      and_then (succ_int32 sz) (fun n =>
      and_then (Buf.resize stored n 32) (fun b =>
      Growth.grow lay T fuel status' b))) in
  (fst rest, mk_report capacity sz status' :: snd rest).
Proof.
  cbn [Growth.grow]. cbv zeta.
  destruct (T _ status) as [[sz status'] out].
  now destruct (and_then _ _).
Qed.

(** The loop never leaves the process. *)
Lemma grow_no_exit fuel : forall status buf code,
  fst (Growth.grow lay T fuel status buf) <> Exited code.
Proof.
  induction fuel as [|fuel IH]; intros status buf code; [discriminate|].
  rewrite grow_S. cbv zeta.
  destruct (T _ status) as [[sz status'] out]. cbn [fst].
  destruct (conversion_failed status'); [other_outcome|].
  cbn [and_then].
  destruct (sz <=? _).
  - destruct (resize_outcome (Buf.store lay out
                (to_int32 (Z.of_nat (List.length buf) + 1)) buf) sz 0)
      as [E|[b E]]; rewrite E; other_outcome.
  - unfold succ_int32.
    destruct (INT32_MAX <? sz + 1); [other_outcome|].
    cbn [and_then].
    destruct (resize_outcome (Buf.store lay out
                (to_int32 (Z.of_nat (List.length buf) + 1)) buf) (sz + 1) 32)
      as [E|[b E]]; rewrite E; [other_outcome|].
    cbn [and_then]. apply IH.
Qed.

(** A call that reports a failure other than overflow is the last one,
    and the loop ends in the error. *)
Lemma grow_failure_thrown fuel : forall status buf r,
  In r (snd (Growth.grow lay T fuel status buf)) ->
  conversion_failed (r_status r) = true ->
  fst (Growth.grow lay T fuel status buf)
  = Thrown (CfdgError "String conversion error").
Proof.
  induction fuel as [|fuel IH]; intros status buf r Hin Hfail; [destruct Hin|].
  revert Hin. rewrite grow_S. cbv zeta.
  destruct (T _ status) as [[sz status'] out]. cbn [fst snd].
  destruct (conversion_failed status') eqn:Hst; [reflexivity|].
  cbn [and_then].
  intros [<-|Hin]; [cbn in Hfail; congruence|].
  revert Hin.
  destruct (sz <=? _).
  - destruct (Buf.resize _ sz 0); cbn; intros [].
  - unfold succ_int32. destruct (INT32_MAX <? sz + 1); [cbn; intros []|].
    cbn [and_then].
    destruct (Buf.resize _ (sz + 1) 32) as [b| | | |]; try (cbn; intros []).
    cbn [and_then]. intros Hin. now apply (IH status' b r).
Qed.

End Loop.

Section LoopRuns.
Variable lay : Buf.layout.
Variable T : transform.

(** While the lengths the call reports stay at or below [bound], the
    buffer passes [bound] after finitely many turns and the loop ends. *)
Lemma grow_bounded_ends (bound : Z) :
  bound < INT32_MAX ->
  (forall capacity status, fst (fst (T capacity status)) <= bound) ->
  forall fuel status buf,
  Z.of_nat (List.length buf) <= INT32_MAX ->
  (Z.to_nat (bound - Z.of_nat (List.length buf)) < fuel)%nat ->
  fst (Growth.grow lay T fuel status buf) <> OutOfFuel.
Proof.
  intros Hbound HT.
  induction fuel as [|fuel IH]; intros status buf Hlen Hfuel; [lia|].
  rewrite grow_S. cbv zeta.
  pose proof (HT (to_int32 (Z.of_nat (List.length buf) + 1)) status) as Hsz.
  destruct (T _ status) as [[sz status'] out]. cbn [fst snd] in *.
  destruct (conversion_failed status'); [other_outcome|].
  cbn [and_then]. rewrite length_store.
  rewrite (to_int32_small (Z.of_nat (List.length buf)))
    by (unfold INT32_MAX in *; lia).
  destruct (sz <=? Z.of_nat (List.length buf)) eqn:Hfit.
  - destruct (resize_outcome (Buf.store lay out
                (to_int32 (Z.of_nat (List.length buf) + 1)) buf) sz 0)
      as [E|[b E]]; rewrite E; other_outcome.
  - apply Z.leb_gt in Hfit. unfold succ_int32.
    replace (INT32_MAX <? sz + 1) with false by (symmetry; apply Z.ltb_ge; lia).
    cbn [and_then].
    destruct (resize_grow (Buf.store lay out
                (to_int32 (Z.of_nat (List.length buf) + 1)) buf) (sz + 1) 32)
      as [E Hgrown]; [rewrite length_store; lia|].
    rewrite E. cbn [and_then]. apply IH; lia.
Qed.

(** A call that reports the same length [n] whatever it is offered is
    made once when [n] fits the first buffer and twice when it does not. *)
Lemma grow_exact_two_turns (n : Z) :
  0 <= n < INT32_MAX ->
  (forall capacity status,
      fst (fst (T capacity status)) = n /\
      conversion_failed (snd (fst (T capacity status))) = false) ->
  forall fuel status buf,
  Z.of_nat (List.length buf) <= INT32_MAX ->
  exists status' result,
    fst (Growth.grow lay T (S (S fuel)) status buf) = Returned (status', result)
    /\ Z.of_nat (List.length result) = n
    /\ (List.length (snd (Growth.grow lay T (S (S fuel)) status buf)) <= 2)%nat.
Proof.
  intros Hn HT fuel status buf Hlen.
  destruct (HT (to_int32 (Z.of_nat (List.length buf) + 1)) status) as [Hsz Hok].
  destruct (T (to_int32 (Z.of_nat (List.length buf) + 1)) status)
    as [[sz status1] out1] eqn:E1.
  cbn [fst snd] in Hsz, Hok. subst sz.
  destruct (Z_le_gt_dec n (Z.of_nat (List.length buf))) as [Hfit|Hmore].
  - rewrite (grow_fits lay T _ _ _ _ _ _ E1 Hok Hlen) by lia.
    eexists _, _. cbn [fst snd List.length].
    split; [reflexivity|]. split; [|lia].
    rewrite length_firstn, length_store. lia.
  - destruct (grow_again lay T (S fuel) _ _ _ _ _ E1 Hok Hlen) as [Hgrown ->]; [lia|].
    set (grown := (Buf.store lay out1 _ buf ++ repeat 32 _)%list) in *.
    destruct (HT (to_int32 (Z.of_nat (List.length grown) + 1)) status1) as [Hsz Hok2].
    destruct (T (to_int32 (Z.of_nat (List.length grown) + 1)) status1)
      as [[sz status2] out2] eqn:E2.
    cbn [fst snd] in Hsz, Hok2. subst sz.
    rewrite (grow_fits lay T _ _ _ _ _ _ E2 Hok2) by lia.
    eexists _, _. cbn [fst snd List.length].
    split; [reflexivity|]. split; [|lia].
    rewrite length_firstn, length_store. lia.
Qed.

(** A call that reports, every time, the capacity it was offered - one
    more than the buffer holds - keeps the loop turning: after any
    number of turns the sizes can express, it has not ended. *)
Lemma grow_keeps_turning :
  (forall capacity status,
      fst (fst (T capacity status)) = capacity /\
      conversion_failed (snd (fst (T capacity status))) = false) ->
  forall fuel status buf,
  Z.of_nat (List.length buf) + 2 * Z.of_nat fuel <= INT32_MAX ->
  fst (Growth.grow lay T fuel status buf) = OutOfFuel
  /\ List.length (snd (Growth.grow lay T fuel status buf)) = fuel.
Proof.
  intros HT.
  induction fuel as [|fuel IH]; intros status buf Hlen; [now split|].
  assert (Hcap : to_int32 (Z.of_nat (List.length buf) + 1)
                 = Z.of_nat (List.length buf) + 1)
    by (apply to_int32_small; unfold INT32_MAX in *; lia).
  destruct (HT (to_int32 (Z.of_nat (List.length buf) + 1)) status) as [Hsz Hok].
  destruct (T (to_int32 (Z.of_nat (List.length buf) + 1)) status)
    as [[sz status1] out1] eqn:E1.
  cbn [fst snd] in Hsz, Hok. rewrite Hcap in Hsz.
  destruct (grow_again lay T fuel _ _ _ _ _ E1 Hok) as [Hgrown ->]; [lia|lia|].
  cbn [fst snd List.length].
  destruct (IH status1
              (Buf.store lay out1 (to_int32 (Z.of_nat (List.length buf) + 1)) buf
               ++ repeat 32 (Z.to_nat (sz + 1) - List.length buf))%list)
    as [-> ->]; [lia|].
  now split.
Qed.

End LoopRuns.

(** A [fresh] call reports the whole length and no failure. *)
Lemma fresh_reports (result : list Z) (capacity : Z) (status : UErrorCode) :
  fst (fst (Demo.fresh result capacity status)) = Z.of_nat (List.length result)
  /\ conversion_failed (snd (fst (Demo.fresh result capacity status))) = false.
Proof.
  unfold Demo.fresh, Demo.hand_over.
  destruct (_ <? capacity); [now split|].
  destruct (_ =? capacity); now split.
Qed.

(** ** The two loops of normalize *)

(** C1.  In both loops of [normalize], for a buffer of [len] elements and
    a call that reports length [sz] without a failure other than
    overflow: when [sz] exceeds [len] the buffer is resized to [sz + 1]
    elements and the call is made again; when [sz] is at most [len] the
    buffer is cut to exactly [sz] elements and the loop ends; so a call
    that reports [sz > len] first and a fitting [sz2] next is made
    exactly twice and leaves a buffer of exactly [sz2] elements. *)
Theorem conversion_loops_resize_and_truncate
    {FS TempType : Type} (H : Host FS TempType)
    (lay : Buf.layout) (T : transform) (run_loop : loop) :
  loop_of_normalize H lay T run_loop ->
  forall (fuel : nat) (status : UErrorCode) (buf : list Z)
         (sz : Z) (status' : UErrorCode) (out : list Z),
  let len := Z.of_nat (List.length buf) in
  len < INT32_MAX ->
  T (len + 1) status = (sz, status', out) ->
  conversion_failed status' = false ->
  let stored := Buf.store lay out (len + 1) buf in
  let grown := (stored ++ repeat 32 (Z.to_nat (sz + 1) - List.length buf))%list in
  (len < sz < INT32_MAX ->
   Z.of_nat (List.length grown) = sz + 1 /\
   run_loop (S fuel) status buf
   = (fst (run_loop fuel status' grown),
      mk_report (len + 1) sz status' :: snd (run_loop fuel status' grown)))
  /\ (0 <= sz <= len ->
      Z.of_nat (List.length (firstn (Z.to_nat sz) stored)) = sz /\
      run_loop (S fuel) status buf
      = (Returned (status', firstn (Z.to_nat sz) stored),
         [mk_report (len + 1) sz status']))
  /\ (len < sz < INT32_MAX - 1 ->
      forall (sz2 : Z) (status2 : UErrorCode) (out2 : list Z),
      T (sz + 2) status' = (sz2, status2, out2) ->
      conversion_failed status2 = false ->
      0 <= sz2 <= sz + 1 ->
      let result := firstn (Z.to_nat sz2) (Buf.store lay out2 (sz + 2) grown) in
      Z.of_nat (List.length result) = sz2 /\
      run_loop (S (S fuel)) status buf
      = (Returned (status2, result),
         [mk_report (len + 1) sz status'; mk_report (sz + 2) sz2 status2])).
Proof.
  intros Hloop fuel status buf sz status' out len Hlen HT Hok stored grown.
  assert (Hrun : run_loop = Growth.grow lay T) by (destruct Hloop; reflexivity).
  subst run_loop.
  assert (Hcap : to_int32 (len + 1) = len + 1)
    by (apply to_int32_small; unfold INT32_MAX in *; lia).
  assert (HT' : T (to_int32 (Z.of_nat (List.length buf) + 1)) status
                = (sz, status', out)) by (fold len; now rewrite Hcap).
  assert (Hagain : len < sz < INT32_MAX ->
            Z.of_nat (List.length grown) = sz + 1 /\
            forall fuel',
            Growth.grow lay T (S fuel') status buf
            = (fst (Growth.grow lay T fuel' status' grown),
               mk_report (len + 1) sz status'
               :: snd (Growth.grow lay T fuel' status' grown))).
  { intros Hsz. split.
    - destruct (grow_again lay T fuel _ _ _ _ _ HT' Hok) as [Hgrown _];
        [fold len; lia | fold len; lia|].
      fold len in Hgrown. rewrite Hcap in Hgrown. exact Hgrown.
    - intros fuel'.
      destruct (grow_again lay T fuel' _ _ _ _ _ HT' Hok) as [_ Hstep];
        [fold len; lia | fold len; lia|].
      fold len in Hstep. rewrite Hcap in Hstep. exact Hstep. }
  split; [|split].
  - intros Hsz. destruct (Hagain Hsz) as [Hgrown Hstep]. now split.
  - intros Hsz. split.
    + subst stored. rewrite length_firstn, length_store. lia.
    + rewrite (grow_fits lay T _ _ _ _ _ _ HT' Hok) by (fold len; lia).
      fold len. now rewrite Hcap.
  - intros Hsz sz2 status2 out2 HT2 Hok2 Hsz2 result.
    destruct Hagain as [Hgrown Hstep]; [lia|].
    assert (Hcap2 : to_int32 (Z.of_nat (List.length grown) + 1) = sz + 2)
      by (rewrite Hgrown, to_int32_small; unfold INT32_MAX in *; lia).
    assert (HT2' : T (to_int32 (Z.of_nat (List.length grown) + 1)) status'
                   = (sz2, status2, out2)) by now rewrite Hcap2.
    split.
    + subst result. rewrite length_firstn, length_store. lia.
    + rewrite Hstep.
      rewrite (grow_fits lay T _ _ _ _ _ _ HT2' Hok2) by lia.
      cbn [fst snd]. now rewrite Hcap2.
Qed.

(** On the host whose normalization doubles "ab".  The decode loop:
    the call, offered 3 units, reports 2, and the buffer is cut to 2.
    The NFKC loop: the first call, offered 3 units, reports 4; the
    buffer grows to 5 elements; the second call, offered 6, reports 4
    and the loop ends with 4 elements after exactly two calls. *)
Lemma conversion_loops_resize_and_truncate_witness :
  let grown :=
    (Buf.store Buf.Wide32LE [97; 97; 98] 3 [32; 32] ++ [32; 32; 32])%list in
  let result := firstn 4 (Buf.store Buf.Wide32LE [97; 97; 98; 98; 0] 6 grown) in
  decode_loop Demo.lengthening (Some 1) "ab" 1%nat U_ZERO_ERROR [32; 32]
  = (Returned (U_ZERO_ERROR, firstn 2 (Buf.store Buf.Units16 [97; 98; 0] 3 [32; 32])),
     [mk_report 3 2 U_ZERO_ERROR])
  /\ (Z.of_nat (List.length grown) = 5
      /\ nfkc_loop Demo.lengthening (Some 2) [97; 98] 1%nat U_ZERO_ERROR [32; 32]
         = (fst (nfkc_loop Demo.lengthening (Some 2) [97; 98] 0%nat
                   U_BUFFER_OVERFLOW_ERROR grown),
            mk_report 3 4 U_BUFFER_OVERFLOW_ERROR
            :: snd (nfkc_loop Demo.lengthening (Some 2) [97; 98] 0%nat
                      U_BUFFER_OVERFLOW_ERROR grown)))
  /\ (Z.of_nat (List.length result) = 4
      /\ nfkc_loop Demo.lengthening (Some 2) [97; 98] 2%nat U_ZERO_ERROR [32; 32]
         = (Returned (U_ZERO_ERROR, result),
            [mk_report 3 4 U_BUFFER_OVERFLOW_ERROR; mk_report 6 4 U_ZERO_ERROR])).
Proof.
  cbv zeta.
  destruct (conversion_loops_resize_and_truncate Demo.lengthening
              Buf.Units16
              (decode_call Demo.lengthening (Some 1) "ab")
              (decode_loop Demo.lengthening (Some 1) "ab")
              (utf8_to_utf16 Demo.lengthening (Some 1) "ab")
              0%nat U_ZERO_ERROR [32; 32]
              2 U_ZERO_ERROR [97; 98; 0])
    as (_ & Hfits & _); [vm_compute; reflexivity | reflexivity | reflexivity |].
  destruct (conversion_loops_resize_and_truncate Demo.lengthening
              Buf.Wide32LE
              (nfkc_call Demo.lengthening (Some 2) [97; 98])
              (nfkc_loop Demo.lengthening (Some 2) [97; 98])
              (nfkc_of_utf16 Demo.lengthening (Some 2) [97; 98])
              0%nat U_ZERO_ERROR [32; 32]
              4 U_BUFFER_OVERFLOW_ERROR [97; 97; 98])
    as (Hgrows & _ & Htwice); [vm_compute; reflexivity | reflexivity | reflexivity |].
  split; [|split].
  - apply Hfits. cbn. lia.
  - apply Hgrows. vm_compute. split; reflexivity.
  - apply (Htwice ltac:(vm_compute; split; reflexivity)
                  4 U_ZERO_ERROR [97; 97; 98; 98; 0]);
      [reflexivity | reflexivity | lia].
Defined.

(** C8.  For both loops of [normalize], started on a buffer whose length
    an [int32_t] holds:
    - if the lengths the call reports never exceed some [bound], the
      loop ends, within [bound - len + 1] turns;
    - if the call reports one length [n] whatever capacity it is
      offered (the common case), the loop ends within two turns, with
      [n] elements;
    - the loop counts no turns: with a call that always reports the
      capacity it was offered, the loop is still running after [fuel]
      turns, for every [fuel] whose buffer sizes fit an [int32_t]. *)
Theorem conversion_loops_end_when_reports_settle
    {FS TempType : Type} (H : Host FS TempType)
    (lay : Buf.layout) (T : transform) (run_loop : loop) :
  loop_of_normalize H lay T run_loop ->
  forall (status : UErrorCode) (buf : list Z),
  let len := Z.of_nat (List.length buf) in
  len <= INT32_MAX ->
  (forall bound : Z,
      bound < INT32_MAX ->
      (forall capacity st, fst (fst (T capacity st)) <= bound) ->
      forall fuel : nat,
      (Z.to_nat (bound - len) < fuel)%nat ->
      fst (run_loop fuel status buf) <> OutOfFuel)
  /\ (forall n : Z,
      0 <= n < INT32_MAX ->
      (forall capacity st,
          fst (fst (T capacity st)) = n /\
          conversion_failed (snd (fst (T capacity st))) = false) ->
      forall fuel : nat,
      (2 <= fuel)%nat ->
      exists status' result,
        fst (run_loop fuel status buf) = Returned (status', result)
        /\ Z.of_nat (List.length result) = n
        /\ (List.length (snd (run_loop fuel status buf)) <= 2)%nat)
  /\ ((forall capacity st,
          fst (fst (T capacity st)) = capacity /\
          conversion_failed (snd (fst (T capacity st))) = false) ->
      forall fuel : nat,
      len + 2 * Z.of_nat fuel <= INT32_MAX ->
      fst (run_loop fuel status buf) = OutOfFuel
      /\ List.length (snd (run_loop fuel status buf)) = fuel).
Proof.
  intros Hloop status buf len Hlen.
  assert (Hrun : run_loop = Growth.grow lay T) by (destruct Hloop; reflexivity).
  subst run_loop. split; [|split].
  - intros bound Hbound HT fuel Hfuel.
    now apply grow_bounded_ends with (bound := bound).
  - intros n Hn HT fuel Hfuel.
    destruct fuel as [|[|fuel]]; try lia.
    now apply grow_exact_two_turns.
  - intros HT fuel Hfuel. now apply grow_keeps_turning.
Qed.

(** On the host whose normalization doubles "ab" the call reports 4
    every time: the NFKC loop ends, in two turns, with four elements.
    On the host whose normalization is never satisfied it is still
    running after seven turns. *)
Lemma conversion_loops_end_when_reports_settle_witness :
  (fst (nfkc_loop Demo.lengthening (Some 2) [97; 98] 3%nat U_ZERO_ERROR [32; 32])
   <> OutOfFuel)
  /\ (exists status' result,
        fst (nfkc_loop Demo.lengthening (Some 2) [97; 98] 2%nat U_ZERO_ERROR [32; 32])
        = Returned (status', result)
        /\ Z.of_nat (List.length result) = 4
        /\ le (List.length
                 (snd (nfkc_loop Demo.lengthening (Some 2) [97; 98] 2%nat
                         U_ZERO_ERROR [32; 32]))) 2)
  /\ (fst (nfkc_loop Demo.never_enough (Some 2) [97; 98] 7%nat U_ZERO_ERROR [32; 32])
      = OutOfFuel
      /\ List.length
           (snd (nfkc_loop Demo.never_enough (Some 2) [97; 98] 7%nat
                   U_ZERO_ERROR [32; 32]))
         = 7%nat).
Proof.
  destruct (conversion_loops_end_when_reports_settle Demo.lengthening
              Buf.Wide32LE
              (nfkc_call Demo.lengthening (Some 2) [97; 98])
              (nfkc_loop Demo.lengthening (Some 2) [97; 98])
              (nfkc_of_utf16 Demo.lengthening (Some 2) [97; 98])
              U_ZERO_ERROR [32; 32])
    as (Hbounded & Hexact & _); [vm_compute; discriminate|].
  destruct (conversion_loops_end_when_reports_settle Demo.never_enough
              Buf.Wide32LE
              (nfkc_call Demo.never_enough (Some 2) [97; 98])
              (nfkc_loop Demo.never_enough (Some 2) [97; 98])
              (nfkc_of_utf16 Demo.never_enough (Some 2) [97; 98])
              U_ZERO_ERROR [32; 32])
    as (_ & _ & Hturns); [vm_compute; discriminate|].
  split; [|split].
  - apply (Hbounded 4).
    + reflexivity.
    + intros capacity st.
      change (nfkc_call Demo.lengthening (Some 2) [97; 98] capacity st)
        with (Demo.fresh (Demo.twice [97; 98]) capacity st).
      destruct (fresh_reports (Demo.twice [97; 98]) capacity st) as [-> _].
      vm_compute. discriminate.
    + vm_compute. lia.
  - apply (Hexact 4).
    + vm_compute. split; [discriminate | reflexivity].
    + intros capacity st. apply fresh_reports.
    + lia.
  - apply Hturns.
    + intros capacity st. split; reflexivity.
    + vm_compute. discriminate.
Defined.

(** ** normalize *)

Section Normalize.
Context {FS TempType : Type}.
Variable H : Host FS TempType.

(** Setting up ICU makes no conversion call and touches neither the
    environment nor the file system.  It returns the engines or leaves
    the process with status 33, the latter when an engine it had to
    construct came with a failure status. *)
Lemma setup_icu_outcome (w : world FS) :
  icu_calls (snd (setup_icu H w)) = icu_calls w
  /\ ((exists engines, fst (setup_icu H w) = Returned engines)
      \/ (fst (setup_icu H w) = Exited 33
          /\ ((mConverter (this w) = None
               /\ U_FAILURE (snd (ucnv_open H "utf-8" U_ZERO_ERROR)) = true)
              \/ (mNormalizer (this w) = None
                  /\ exists status,
                       U_FAILURE (snd (unorm2_getNFKCInstance H status)) = true)))).
Proof.
  unfold setup_icu, bind, get, put_this, put_cerr, catastrophicError, exit, ret.
  cbn [fst snd].
  destruct (mConverter (this w)) as [c|] eqn:Ec;
    [change (U_FAILURE U_ZERO_ERROR) with false
    |destruct (ucnv_open H "utf-8" U_ZERO_ERROR) as [conv st] eqn:Eo;
     cbn [snd]; destruct (U_FAILURE st) eqn:Ef];
    cbv iota beta; cbn [fst snd icu_calls].
  - (* the converter exists *)
    destruct (mNormalizer (this w)) as [n|] eqn:En.
    + change (U_FAILURE U_ZERO_ERROR) with false. cbn. eauto.
    + destruct (unorm2_getNFKCInstance H U_ZERO_ERROR) as [norm st'] eqn:En'.
      destruct (U_FAILURE st') eqn:Ef'; cbn; [|eauto].
      split; [reflexivity|]. right. split; [reflexivity|]. right.
      split; [reflexivity|]. exists U_ZERO_ERROR. now rewrite En'.
  - (* its construction failed *)
    split; [reflexivity|]. right. split; [reflexivity|]. left. now split.
  - (* it was constructed *)
    destruct (mNormalizer (this w)) as [n|] eqn:En.
    + rewrite Ef. cbn. eauto.
    + destruct (unorm2_getNFKCInstance H st) as [norm st'] eqn:En'.
      destruct (U_FAILURE st') eqn:Ef'; cbn; [|eauto].
      split; [reflexivity|]. right. split; [reflexivity|]. right.
      split; [reflexivity|]. exists st. now rewrite En'.
Qed.

(** [normalize] is the setup followed by the two loops; each loop's
    calls are added to the log. *)
Lemma normalize_runs (fuel : nat) (u8name : string) (w : world FS) :
  (exists code, fst (setup_icu H w) = Exited code
                /\ fst (normalize H fuel u8name w) = Exited code
                /\ icu_calls (snd (normalize H fuel u8name w)) = icu_calls w)
  \/ (exists conv norm status,
        fst (setup_icu H w) = Returned (conv, norm, status)
        /\ let first :=
             decode_loop H conv u8name fuel status
               (repeat 32 (String.length u8name)) in
           match fst first with
           | Returned (status1, u16name) =>
               let second :=
                 nfkc_loop H norm u16name fuel status1
                   (repeat 32 (List.length u16name)) in
               icu_calls (snd (normalize H fuel u8name w))
               = (icu_calls w ++ snd first ++ snd second)%list
               /\ match fst second with
                  | Returned (_, ret_) =>
                      fst (normalize H fuel u8name w) = Returned ret_
                  | Thrown e => fst (normalize H fuel u8name w) = Thrown e
                  | Exited code => False
                  | Undefined => fst (normalize H fuel u8name w) = Undefined
                  | OutOfFuel => fst (normalize H fuel u8name w) = OutOfFuel
                  end
           | Thrown e =>
               icu_calls (snd (normalize H fuel u8name w))
               = (icu_calls w ++ snd first)%list
               /\ fst (normalize H fuel u8name w) = Thrown e
           | Exited code => False
           | Undefined =>
               icu_calls (snd (normalize H fuel u8name w))
               = (icu_calls w ++ snd first)%list
               /\ fst (normalize H fuel u8name w) = Undefined
           | OutOfFuel =>
               icu_calls (snd (normalize H fuel u8name w))
               = (icu_calls w ++ snd first)%list
               /\ fst (normalize H fuel u8name w) = OutOfFuel
           end).
Proof.
  destruct (setup_icu_outcome w) as [Hlog [[[[conv norm] status] Hs]|[Hs _]]].
  - right. exists conv, norm, status. split; [exact Hs|].
    unfold normalize, bind.
    destruct (setup_icu H w) as [o w1]. cbn [fst snd] in Hs, Hlog. subst o.
    unfold logged. cbv zeta. cbn [fst snd].
    pose proof (grow_no_exit Buf.Units16 (decode_call H conv u8name) fuel status
                  (repeat 32 (String.length u8name))) as Hno1.
    fold (decode_loop H conv u8name) in Hno1.
    destruct (decode_loop H conv u8name fuel status
                (repeat 32 (String.length u8name))) as [o1 log1].
    cbn [fst snd] in *.
    destruct o1 as [[status1 u16name]|e|code| |]; cbn [fst snd icu_calls];
      try (now rewrite Hlog); [|now apply (Hno1 code)].
    pose proof (grow_no_exit (wchar_layout H) (nfkc_call H norm u16name) fuel
                  status1 (repeat 32 (List.length u16name))) as Hno2.
    fold (nfkc_loop H norm u16name) in Hno2.
    destruct (nfkc_loop H norm u16name fuel status1
                (repeat 32 (List.length u16name))) as [o2 log2].
    cbn [fst snd] in *.
    destruct o2 as [[status2 ret_]|e|code| |]; cbn;
      try (split; [now rewrite Hlog, app_assoc | reflexivity]).
    now elim (Hno2 code).
  - left. exists 33. split; [exact Hs|].
    unfold normalize, bind.
    destruct (setup_icu H w) as [o w1]. cbn [fst snd] in Hs, Hlog. subst o.
    cbn [fst snd]. now split.
Qed.

End Normalize.

(** C2.  When a call made by [normalize] - in the decode loop or in the
    NFKC loop - reports a failure other than buffer overflow,
    [normalize] ends by raising the conversion error to its caller: it
    does not return a buffer, does not leave the process, and is not
    still running. *)
Theorem normalize_raises_conversion_failure
    {FS TempType : Type} (H : Host FS TempType)
    (fuel : nat) (u8name : string) (w : world FS)
    (calls : list report) (r : report) :
  icu_calls (snd (normalize H fuel u8name w)) = (icu_calls w ++ calls)%list ->
  In r calls ->
  conversion_failed (r_status r) = true ->
  fst (normalize H fuel u8name w) = Thrown (CfdgError "String conversion error")
  /\ (forall ret_, fst (normalize H fuel u8name w) <> Returned ret_)
  /\ (forall code, fst (normalize H fuel u8name w) <> Exited code).
Proof.
  intros Hcalls Hin Hfail.
  assert (Hthrown : fst (normalize H fuel u8name w)
                    = Thrown (CfdgError "String conversion error")).
  { destruct (normalize_runs H fuel u8name w)
      as [(code & _ & _ & Hlog)|(conv & norm & status & _ & Hrun)].
    - rewrite Hlog in Hcalls. rewrite <- (app_nil_r (icu_calls w)) in Hcalls at 1.
      apply app_inv_head in Hcalls. subst calls. destruct Hin.
    - cbv zeta in Hrun.
      pose proof (grow_failure_thrown Buf.Units16 (decode_call H conv u8name)
                    fuel status (repeat 32 (String.length u8name)) r) as Hfirst.
      fold (decode_loop H conv u8name) in Hfirst.
      destruct (decode_loop H conv u8name fuel status
                  (repeat 32 (String.length u8name))) as [o1 log1].
      cbn [fst snd] in Hrun, Hfirst.
      destruct o1 as [[status1 u16name]|e|code| |].
      + pose proof (grow_failure_thrown (wchar_layout H) (nfkc_call H norm u16name)
                      fuel status1 (repeat 32 (List.length u16name)) r) as Hsecond.
        fold (nfkc_loop H norm u16name) in Hsecond.
        destruct (nfkc_loop H norm u16name fuel status1
                    (repeat 32 (List.length u16name))) as [o2 log2].
        cbn [fst snd] in Hrun, Hsecond.
        destruct Hrun as [Hlog Hout]. rewrite Hlog in Hcalls.
        apply app_inv_head in Hcalls. subst calls.
        apply in_app_or in Hin as [Hin|Hin].
        * discriminate (Hfirst Hin Hfail).
        * now rewrite (Hsecond Hin Hfail) in Hout.
      + destruct Hrun as [Hlog Hout]. rewrite Hlog in Hcalls.
        apply app_inv_head in Hcalls. subst calls.
        rewrite Hout. injection (Hfirst Hin Hfail) as ->. reflexivity.
      + destruct Hrun.
      + destruct Hrun as [Hlog Hout]. rewrite Hlog in Hcalls.
        apply app_inv_head in Hcalls. subst calls.
        discriminate (Hfirst Hin Hfail).
      + destruct Hrun as [Hlog Hout]. rewrite Hlog in Hcalls.
        apply app_inv_head in Hcalls. subst calls.
        discriminate (Hfirst Hin Hfail). }
  rewrite Hthrown. repeat split; intros; discriminate.
Qed.

(** On the host whose converter rejects its input, [normalize "ab"]
    makes one call, which reports U_INVALID_CHAR_FOUND, and raises. *)
Lemma normalize_raises_conversion_failure_witness :
  fst (normalize Demo.invalid_input 4 "ab" (Demo.start Demo.env_var_tmp))
  = Thrown (CfdgError "String conversion error").
Proof.
  apply (normalize_raises_conversion_failure Demo.invalid_input 4 "ab"
           (Demo.start Demo.env_var_tmp) [mk_report 3 0 10] (mk_report 3 0 10)).
  - reflexivity.
  - left. reflexivity.
  - reflexivity.
Defined.

(** ** The fatal error reporter *)

(** C4.  On the first call of [normalize]:
    - if [ucnv_open] leaves a failure status, the message
      "Unexpected error: No Converter" goes to [cerr] and the process
      exits with status 33;
    - if the converter is constructed and [unorm2_getNFKCInstance]
      leaves a failure status, the NFKC message and
      "Unexpected error: No Normalizer" go to [cerr] and the process
      exits with status 33.
    And whatever member function is called, in whatever state: if the
    process exits, the status is 33 and the call was
    [catastrophicError] itself or a [normalize] that had to construct
    an engine whose construction left a failure status. *)
Theorem only_engine_failure_exits
    {FS TempType : Type} (H : Host FS TempType) (fuel : nat) :
  (forall (u8name : string) (w : world FS),
      this w = PosixSystem_new ->
      U_FAILURE (snd (ucnv_open H "utf-8" U_ZERO_ERROR)) = true ->
      fst (normalize H fuel u8name w) = Exited 33
      /\ cerr (snd (normalize H fuel u8name w))
         = cerr w ++ endl ++ endl ++ "Unexpected error: No Converter" ++ endl)
  /\ (forall (u8name : string) (w : world FS),
      this w = PosixSystem_new ->
      let opened := snd (ucnv_open H "utf-8" U_ZERO_ERROR) in
      let status := snd (unorm2_getNFKCInstance H opened) in
      U_FAILURE opened = false ->
      U_FAILURE status = true ->
      fst (normalize H fuel u8name w) = Exited 33
      /\ cerr (snd (normalize H fuel u8name w))
         = (cerr w ++ "Error getting NFKC normalizer: "
                   ++ u_errorName H status ++ endl)
           ++ endl ++ endl ++ "Unexpected error: No Normalizer" ++ endl)
  /\ (forall (op : operation TempType) (w : world FS) (code : Z),
      fst (run H fuel op w) = Exited code ->
      code = 33
      /\ ((exists what, op = CatastrophicError what)
          \/ (exists u8name,
                op = Normalize u8name
                /\ ((mConverter (this w) = None
                     /\ U_FAILURE (snd (ucnv_open H "utf-8" U_ZERO_ERROR)) = true)
                    \/ (mNormalizer (this w) = None
                        /\ exists status,
                             U_FAILURE (snd (unorm2_getNFKCInstance H status))
                             = true))))).
Proof.
  split; [|split].
  - intros u8name w Hnew Hfail.
    unfold normalize, setup_icu, bind, get, put_this, put_cerr,
      catastrophicError, exit, ret.
    rewrite Hnew. cbn [mConverter mNormalizer PosixSystem_new].
    destruct (ucnv_open H "utf-8" U_ZERO_ERROR) as [conv st].
    cbn [snd] in Hfail. rewrite Hfail. cbn. now split.
  - intros u8name w Hnew opened status Hopen Hfail. subst status opened.
    unfold normalize, setup_icu, bind, get, put_this, put_cerr,
      catastrophicError, exit, ret.
    rewrite Hnew. cbn [mConverter mNormalizer PosixSystem_new].
    destruct (ucnv_open H "utf-8" U_ZERO_ERROR) as [conv st].
    cbn [snd] in Hopen, Hfail |- *. rewrite Hopen. cbv iota beta.
    destruct (unorm2_getNFKCInstance H st) as [norm st'].
    cbn [snd] in Hfail |- *. rewrite Hfail. cbn. now split.
  - intros op w code Hexit. destruct op; cbn in Hexit.
    + discriminate Hexit.
    + injection Hexit as <-. eauto.
    + discriminate Hexit.
    + revert Hexit. unfold tempFileForWrite, bind, get, put_fs, ret.
      destruct (mkstemps H _ _ _) as [[tfd b] fs']. cbn.
      destruct (negb (tfd =? -1)); discriminate.
    + destruct (relativeFilePath_returns base rel) as [s E].
      rewrite E in Hexit. discriminate Hexit.
    + revert Hexit. unfold deleteTempFile, bind, get, put_fs, ret.
      destruct (remove H _ _) as [r fs']. discriminate.
    + discriminate Hexit.
    + discriminate Hexit.
    + destruct (setup_icu_outcome H w) as [_ [[engines Hs]|[Hs Hcause]]];
        destruct (normalize_runs H fuel u8name w)
          as [(code' & Hs' & Hn & _)|(conv & norm & status & Hs' & Hrun)].
      * rewrite Hs in Hs'. discriminate Hs'.
      * exfalso. cbv zeta in Hrun.
        destruct (fst (decode_loop H conv u8name fuel status _))
          as [[status1 u16name]|e|code1| |];
          try (destruct Hrun as [_ Hout]; rewrite Hout in Hexit;
               discriminate Hexit);
          [|exact Hrun].
        destruct Hrun as [_ Hout].
        destruct (fst (nfkc_loop H norm u16name fuel status1 _))
          as [[status2 ret_]|e|code2| |];
          try (rewrite Hout in Hexit; discriminate Hexit).
        exact Hout.
      * rewrite Hs in Hs'. injection Hs' as <-.
        rewrite Hn in Hexit. injection Hexit as <-.
        split; [reflexivity|]. right. exists u8name. now split.
      * rewrite Hs in Hs'. discriminate Hs'.
Qed.

(** The first [normalize] of a process whose [ucnv_open] fails, and of
    one whose [unorm2_getNFKCInstance] fails. *)
Lemma only_engine_failure_exits_witness :
  (fst (normalize Demo.no_converter 4 "ab" (Demo.start Demo.env_var_tmp))
   = Exited 33
   /\ cerr (snd (normalize Demo.no_converter 4 "ab" (Demo.start Demo.env_var_tmp)))
      = endl ++ endl ++ "Unexpected error: No Converter" ++ endl)
  /\ (fst (normalize Demo.no_normalizer 4 "ab" (Demo.start Demo.env_var_tmp))
      = Exited 33
      /\ cerr (snd (normalize Demo.no_normalizer 4 "ab" (Demo.start Demo.env_var_tmp)))
         = "Error getting NFKC normalizer: U_MISSING_RESOURCE_ERROR" ++ endl
           ++ endl ++ endl ++ "Unexpected error: No Normalizer" ++ endl)
  /\ (33 = 33
      /\ ((exists what, @Normalize bool "ab" = CatastrophicError what)
          \/ (exists u8name,
                @Normalize bool "ab" = Normalize u8name
                /\ ((mConverter (this (Demo.start Demo.env_var_tmp)) = None
                     /\ U_FAILURE (snd (ucnv_open Demo.no_converter "utf-8"
                                          U_ZERO_ERROR)) = true)
                    \/ (mNormalizer (this (Demo.start Demo.env_var_tmp)) = None
                        /\ exists status,
                             U_FAILURE (snd (unorm2_getNFKCInstance
                                               Demo.no_converter status))
                             = true))))).
Proof.
  destruct (only_engine_failure_exits Demo.no_converter 4)
    as (Hconverter & _ & Honly).
  destruct (only_engine_failure_exits Demo.no_normalizer 4)
    as (_ & Hnormalizer & _).
  split; [|split].
  - apply (Hconverter "ab" (Demo.start Demo.env_var_tmp)); reflexivity.
  - apply (Hnormalizer "ab" (Demo.start Demo.env_var_tmp)); reflexivity.
  - apply (Honly (Normalize "ab") (Demo.start Demo.env_var_tmp) 33).
    reflexivity.
Defined.

(** ** getPhysicalMemory *)

Section Memory.
Context {FS TempType : Type}.
Variable H : Host FS TempType.

Hypothesis ceiling_is_a_size_t : 0 <= MaximumMemory H < 2 ^ size_t_bits H.

Lemma clamped_at_most_ceiling (size : Z) :
  0 <= size -> 0 <= clamped H size <= MaximumMemory H.
Proof.
  intros Hsize. unfold clamped.
  destruct (MaximumMemory H <? size) eqn:E.
  - rewrite to_unsigned_small by lia. lia.
  - apply Z.ltb_ge in E. rewrite to_unsigned_small by lia. lia.
Qed.

Lemma clamped_value (size : Z) :
  0 <= size ->
  clamped H size = if MaximumMemory H <? size then MaximumMemory H else size.
Proof.
  intros Hsize. unfold clamped.
  destruct (MaximumMemory H <? size) eqn:E.
  - apply to_unsigned_small. lia.
  - apply Z.ltb_ge in E. apply to_unsigned_small. lia.
Qed.

(** Whatever the platform and whatever the queries yield, the result is
    between zero and the ceiling. *)
Lemma getPhysicalMemory_at_most_ceiling :
  0 <= getPhysicalMemory H <= MaximumMemory H.
Proof.
  unfold getPhysicalMemory.
  destruct (nosysctl (build H)); [lia|].
  destruct (def_linux (build H)).
  - destruct (SC_PHYS_PAGES (build H)); [|lia].
    destruct (SC_PAGESIZE (build H)); [|lia].
    apply clamped_at_most_ceiling. unfold to_uint64, to_unsigned.
    apply Z.mod_pos_bound. reflexivity.
  - destruct (CTL_HW (build H)); [|lia].
    destruct (hw_query (build H)) as [[name bits]|] eqn:Eq; [|lia].
    destruct (sysctl H _ _) as [r size].
    destruct (r =? 0); [|lia].
    apply clamped_at_most_ceiling. unfold to_unsigned.
    assert (Hbits : bits = 64 \/ bits = 32).
    { unfold hw_query in Eq.
      destruct (HW_MEMSIZE (build H)), (HW_PHYSMEM64 (build H)),
        (HW_REALMEM (build H)), (HW_PHYSMEM (build H));
        inversion Eq; auto. }
    destruct Hbits as [-> | ->]; apply Z.mod_pos_bound; reflexivity.
Qed.

(** With no mechanism compiled in the result is zero. *)
Lemma getPhysicalMemory_without_mechanism :
  nosysctl (build H) = true
  \/ (def_linux (build H) = true
      /\ (SC_PHYS_PAGES (build H) = None \/ SC_PAGESIZE (build H) = None))
  \/ (def_linux (build H) = false
      /\ (CTL_HW (build H) = None \/ hw_query (build H) = None)) ->
  getPhysicalMemory H = 0.
Proof.
  unfold getPhysicalMemory.
  intros [-> | [[-> [-> | ->]] | [-> [-> | ->]]]];
    destruct (nosysctl (build H)); try reflexivity.
  - now destruct (SC_PHYS_PAGES (build H)).
  - now destruct (CTL_HW (build H)).
Qed.

(** The [sysctl] branch tests the return value: a failed query gives
    zero, a successful one the value clamped. *)
Lemma getPhysicalMemory_sysctl (ctl_hw name bits r size : Z) :
  nosysctl (build H) = false ->
  def_linux (build H) = false ->
  CTL_HW (build H) = Some ctl_hw ->
  hw_query (build H) = Some (name, bits) ->
  sysctl H [ctl_hw; name] (bits / 8) = (r, size) ->
  getPhysicalMemory H
  = if r =? 0 then clamped H (to_unsigned bits size) else 0.
Proof.
  intros Hno Hlinux Hctl Hq Hcall. unfold getPhysicalMemory.
  now rewrite Hno, Hlinux, Hctl, Hq, Hcall.
Qed.

(** The Linux branch does not: the product of the two [sysconf] results,
    as a [uint64_t], is clamped and returned, also when a result is the
    -1 of a failed [sysconf]. *)
Lemma getPhysicalMemory_linux (phys_pages pagesize : Z) :
  nosysctl (build H) = false ->
  def_linux (build H) = true ->
  SC_PHYS_PAGES (build H) = Some phys_pages ->
  SC_PAGESIZE (build H) = Some pagesize ->
  getPhysicalMemory H
  = clamped H (to_uint64 (to_uint64 (sysconf H phys_pages)
                          * to_uint64 (sysconf H pagesize))).
Proof.
  intros Hno Hlinux Hpp Hps. unfold getPhysicalMemory.
  now rewrite Hno, Hlinux, Hpp, Hps.
Qed.

(** So when [sysconf(_SC_PHYS_PAGES)] fails and the page size is [p],
    the product is [2^64 - p], and any ceiling below that is what comes
    back. *)
Lemma getPhysicalMemory_linux_failed_query (phys_pages pagesize : Z) :
  nosysctl (build H) = false ->
  def_linux (build H) = true ->
  SC_PHYS_PAGES (build H) = Some phys_pages ->
  SC_PAGESIZE (build H) = Some pagesize ->
  sysconf H phys_pages = -1 ->
  0 < sysconf H pagesize < 2 ^ 64 ->
  MaximumMemory H < 2 ^ 64 - sysconf H pagesize ->
  getPhysicalMemory H = MaximumMemory H.
Proof.
  intros Hno Hlinux Hpp Hps Hfail Hsize Hceiling.
  rewrite (getPhysicalMemory_linux phys_pages pagesize) by assumption.
  rewrite Hfail. set (p := sysconf H pagesize) in *.
  assert (Hproduct : to_uint64 (to_uint64 (-1) * to_uint64 p) = 2 ^ 64 - p).
  { unfold to_uint64, to_unsigned.
    rewrite (Z.mod_small p) by lia.
    change (-1 mod 2 ^ 64) with (2 ^ 64 - 1).
    replace ((2 ^ 64 - 1) * p) with ((2 ^ 64 - p) + (p - 1) * 2 ^ 64) by ring.
    rewrite Z_mod_plus_full. apply Z.mod_small. lia. }
  rewrite Hproduct, clamped_value by lia.
  replace (MaximumMemory H <? 2 ^ 64 - p) with true
    by (symmetry; apply Z.ltb_lt; lia).
  reflexivity.
Qed.

End Memory.

(** C5.  On Linux, with a page size of 4096 and a ceiling of 2^33, a
    failed [sysconf(_SC_PHYS_PAGES)] (-1) makes [getPhysicalMemory]
    return the ceiling, 8589934592, not the zero that stands for
    "unknown": -1 becomes 2^64 - 1 as a [uint64_t], the product is
    2^64 - 4096, and that is clamped. *)
Theorem getPhysicalMemory_linux_failed_query_is_not_zero :
  sysconf Demo.sysconf_fails 85 = -1
  /\ getPhysicalMemory Demo.sysconf_fails = MaximumMemory Demo.sysconf_fails
  /\ getPhysicalMemory Demo.sysconf_fails = 8589934592
  /\ getPhysicalMemory Demo.sysconf_fails <> 0.
Proof.
  split; [reflexivity|].
  rewrite (getPhysicalMemory_linux_failed_query Demo.sysconf_fails
             ltac:(split; [discriminate | reflexivity]) 85 30);
    try reflexivity.
  - repeat split. discriminate.
  - split; reflexivity.
Qed.

(** ** What normalize returns *)

(** Where a wide character has 32 bits and ICU converts and normalizes
    "ab" to itself - two units and, the capacity being three, a NUL -
    the two units land in the first wide character and the NUL in the
    second. *)
Lemma normalize_ascii_pair {FS TempType : Type} (H : Host FS TempType)
    (fuel : nat) (w : world FS) (conv norm : option handle) :
  wchar_layout H = Buf.Wide32LE ->
  fst (setup_icu H w) = Returned (conv, norm, U_ZERO_ERROR) ->
  ucnv_toUChars H conv 3 "ab" 2 U_ZERO_ERROR = (2, U_ZERO_ERROR, [97; 98; 0]) ->
  unorm2_normalize H norm [97; 98] 2 3 U_ZERO_ERROR = (2, U_ZERO_ERROR, [97; 98; 0]) ->
  fst (normalize H (S fuel) "ab" w) = Returned [6422625; 0].
Proof.
  intros Hlay Hsetup Hdecode Hnfkc.
  assert (Hfirst :
            decode_loop H conv "ab" (S fuel) U_ZERO_ERROR
              (repeat 32 (String.length "ab"))
            = (Returned (U_ZERO_ERROR, [97; 98]), [mk_report 3 2 U_ZERO_ERROR])).
  { unfold decode_loop.
    rewrite (grow_fits Buf.Units16 _ fuel U_ZERO_ERROR _ 2 U_ZERO_ERROR [97; 98; 0]);
      [reflexivity | exact Hdecode | reflexivity | discriminate | cbn; lia]. }
  assert (Hsecond :
            nfkc_loop H norm [97; 98] (S fuel) U_ZERO_ERROR
              (repeat 32 (List.length [97; 98]))
            = (Returned (U_ZERO_ERROR, [6422625; 0]),
               [mk_report 3 2 U_ZERO_ERROR])).
  { unfold nfkc_loop. rewrite Hlay.
    rewrite (grow_fits Buf.Wide32LE _ fuel U_ZERO_ERROR _ 2 U_ZERO_ERROR [97; 98; 0]);
      [reflexivity | exact Hnfkc | reflexivity | discriminate | cbn; lia]. }
  unfold normalize, bind.
  destruct (setup_icu H w) as [o w1]. cbn [fst] in Hsetup. subst o.
  cbv beta iota. unfold logged. rewrite Hfirst. cbn [fst snd].
  rewrite Hsecond. reflexivity.
Qed.

(** C7.  "ab" is in NFKC form.  On a little-endian host with a 32-bit
    [wchar_t], [normalize "ab"] is the two wide characters 0x00620061
    and 0, not 'a' and 'b': the UTF-16 units are stored through
    [reinterpret_cast<UChar*>] into the wide string, two to a
    character, and the string is then cut to the number of units.  The
    NONORMALIZE variant of the function, which assigns unit by unit,
    gives 'a' and 'b', and so does [normalize] where [wchar_t] has 16
    bits. *)
Theorem normalize_packs_units_into_wide_characters :
  fst (normalize Demo.plain 1 "ab" (Demo.start Demo.env_var_tmp))
  = Returned [6422625; 0]
  /\ fst (normalize Demo.plain 1 "ab" (Demo.start Demo.env_var_tmp))
     <> Returned (Demo.units "ab")
  /\ normalize_NONORMALIZE Demo.plain "ab" = Demo.units "ab"
  /\ fst (normalize Demo.plain16 1 "ab" (Demo.start Demo.env_var_tmp))
     = Returned (Demo.units "ab").
Proof.
  assert (Hpacked : fst (normalize Demo.plain 1 "ab" (Demo.start Demo.env_var_tmp))
                    = Returned [6422625; 0]).
  { apply (normalize_ascii_pair Demo.plain 0 (Demo.start Demo.env_var_tmp)
             (Some 1) (Some 2)); reflexivity. }
  split; [exact Hpacked|]. split; [|split; reflexivity].
  rewrite Hpacked. discriminate.
Qed.

(** [status] is not reset between the calls of a loop.  ICU's functions
    return at once when the status they are handed is a failure, and
    U_BUFFER_OVERFLOW_ERROR is one: on such a host the call that
    follows an overflow reports length 0, and a name whose normal form
    is longer than the name comes out empty. *)
Remark overflow_status_outlives_the_retry :
  normalize Demo.lengthening_guarded 3 "ab" (Demo.start Demo.env_var_tmp)
  = (Returned [],
     {| this := {| mConverter := Some 1; mNormalizer := Some 2;
                   mErrorReported := false |};
        cerr := "";
        env := Demo.env_var_tmp;
        fs := tt;
        icu_calls := [mk_report 3 2 U_ZERO_ERROR;
                      mk_report 3 4 U_BUFFER_OVERFLOW_ERROR;
                      mk_report 6 0 U_BUFFER_OVERFLOW_ERROR] |}).
Proof. reflexivity. Qed.

(** ** The functions at work *)

Example tempFileDirectory_takes_TMPDIR :
  tempFileDirectory Demo.plain (Demo.start Demo.env_var_tmp) = "/var/tmp".
Proof. reflexivity. Qed.

(** TMPDIR names a file and TEMP a path that does not exist: TMP is taken. *)
Example tempFileDirectory_passes_over_what_is_no_directory :
  tempFileDirectory Demo.plain
    (Demo.start (fun name =>
       if (name =? "TMPDIR")%string then Some "/etc/passwd"
       else if (name =? "TEMP")%string then Some "/nowhere"
       else if (name =? "TMP")%string then Some "/var/tmp"
       else None))
  = "/var/tmp".
Proof. reflexivity. Qed.

Example tempFileDirectory_falls_back :
  tempFileDirectory Demo.plain (Demo.start (fun _ => None)) = "/tmp/".
Proof. reflexivity. Qed.

Example findTempFiles_in_var_tmp :
  findTempFiles Demo.plain (Demo.start Demo.env_var_tmp)
  = ["/var/tmp/cfdg_temp_fin_a1b2c3.tmp"; "/var/tmp/cfdg_temp_unfin_Zz09Qq"].
Proof. reflexivity. Qed.

(** The fallback directory cannot be opened on this host. *)
Example findTempFiles_without_directory :
  findTempFiles Demo.plain (Demo.start (fun _ => None)) = [].
Proof. reflexivity. Qed.

Example relativeFilePath_beside_the_base :
  relativeFilePath "designs/tree.cfdg" "leaf.cfdg" = Returned "designs/leaf.cfdg".
Proof. reflexivity. Qed.

Example relativeFilePath_without_directory :
  relativeFilePath "tree.cfdg" "leaf.cfdg" = Returned "leaf.cfdg".
Proof. reflexivity. Qed.

(** 10^7 pages of 4096 bytes are more than the ceiling of 2^33. *)
Example getPhysicalMemory_clamps :
  getPhysicalMemory
    (Demo.host Buf.Wide32LE Demo.linux 10000000 5 0 0
       (fun _ => Demo.failing) (fun _ => Demo.failing))
  = 2 ^ 33.
Proof. reflexivity. Qed.

Example getPhysicalMemory_below_the_ceiling :
  getPhysicalMemory Demo.plain = 4096000000.
Proof. reflexivity. Qed.

Example getPhysicalMemory_without_symbols :
  getPhysicalMemory
    (Demo.host Buf.Wide32LE Demo.no_symbols 10000000 5 0 0
       (fun _ => Demo.failing) (fun _ => Demo.failing))
  = 0.
Proof. reflexivity. Qed.

(** * Further properties *)

(** ** TrackPoint *)

(** Bits at and above position [k] do not meet a number below [2^k]. *)
Lemma lor_above_low (hi lo k : Z) :
  0 <= k -> 0 <= lo < 2 ^ k -> Z.lor (hi * 2 ^ k) lo = hi * 2 ^ k + lo.
Proof.
  intros Hk Hlo.
  rewrite <- Z.lxor_lor, <- Z.add_nocarry_lxor; trivial.
  all: rewrite <- Z.shiftl_mul_pow2 by lia.
  all: apply Z.bits_inj'; intros n Hn; rewrite Z.land_spec, Z.bits_0.
  all: destruct (Z_lt_le_dec n k) as [Hlt|Hge].
  all: try (rewrite Z.shiftl_spec_low by lia; reflexivity).
  all: rewrite <- (Z.mod_small lo (2 ^ k)) by lia.
  all: rewrite Z.mod_pow2_bits_high by lia; apply andb_false_r.
Qed.

Lemma land_255 (z : Z) : Z.land z 255 = z mod 256.
Proof. change 255 with (Z.ones 8). now rewrite Z.land_ones. Qed.

(** Alpha 255 and three bytes [r], [g], [b] put together with [|] and
    [<<] are the number with these four bytes. *)
Lemma argb_bytes (r g b : Z) :
  0 <= r < 256 -> 0 <= g < 256 -> 0 <= b < 256 ->
  Z.lor (Z.lor (Z.lor 4278190080 (Z.shiftl r 16)) (Z.shiftl g 8)) b
  = 4278190080 + r * 65536 + g * 256 + b.
Proof.
  intros Hr Hg Hb.
  rewrite !Z.shiftl_mul_pow2 by lia.
  change (2 ^ 16) with 65536. change (2 ^ 8) with 256.
  change 4278190080 with (255 * 2 ^ 24).
  rewrite (lor_above_low 255 (r * 65536) 24) by lia.
  replace (255 * 2 ^ 24 + r * 65536) with ((65280 + r) * 2 ^ 16) by lia.
  rewrite (lor_above_low (65280 + r) (g * 256) 16) by lia.
  replace ((65280 + r) * 2 ^ 16 + g * 256)
    with ((16711680 + r * 256 + g) * 2 ^ 8) by lia.
  rewrite (lor_above_low _ b 8) by lia.
  lia.
Qed.

(** The bytes of a [COLORREF]. *)
Lemma colorref_bytes (c : Z) :
  Win.GetRValue c = c mod 256
  /\ Win.GetGValue c = c / 256 mod 256
  /\ Win.GetBValue c = c / 65536 mod 256.
Proof.
  unfold Win.GetRValue, Win.GetGValue, Win.GetBValue, Win.LOBYTE, to_unsigned.
  rewrite !land_255, !Z.shiftr_div_pow2 by lia.
  change (2 ^ 8) with 256. change (2 ^ 16) with 65536.
  repeat split.
  Z.div_mod_to_equations. lia.
Qed.

(** The three colour bytes of a 32-bit value are those of its low 24 bits. *)
Lemma bytes_of_low_24 (c : Z) :
  ((c mod 2 ^ 32) mod 256 = (c mod 2 ^ 24) mod 256)
  /\ ((c mod 2 ^ 32) / 256 mod 256 = (c mod 2 ^ 24) / 256 mod 256)
  /\ ((c mod 2 ^ 32) / 65536 mod 256 = (c mod 2 ^ 24) / 65536 mod 256).
Proof.
  change (2 ^ 24) with 16777216. change (2 ^ 32) with 4294967296.
  repeat split; Z.div_mod_to_equations; lia.
Qed.

(** The value returned, by the bytes of the colour read. *)
Lemma TrackPoint_value (D : Win.Desktop) (held : list Z) :
  let c := to_unsigned 32
             (Win.GetPixel D (Win.GetDC D) (fst (Win.GetCursorPos D))
                (snd (Win.GetCursorPos D))) in
  fst (Win.TrackPoint D held)
  = 4278190080 + (c mod 256) * 65536 + (c / 256 mod 256) * 256
    + c / 65536 mod 256.
Proof.
  cbv zeta. unfold Win.TrackPoint. cbn [fst].
  set (c := to_unsigned 32 _).
  destruct (colorref_bytes c) as (-> & -> & ->).
  apply argb_bytes; apply Z.mod_pos_bound; lia.
Qed.

(** X1. [TrackPoint] returns the colour under the cursor as opaque ARGB:
    the [COLORREF] it reads is 0x00bbggrr, the value returned has 255 in
    its top byte, then the red, the green and the blue byte of the
    colour, and so lies between 0xff000000 and 0xffffffff. *)
Theorem TrackPoint_turns_0bgr_into_argb (D : Win.Desktop) (held : list Z) :
  let c := to_unsigned 32
             (Win.GetPixel D (Win.GetDC D) (fst (Win.GetCursorPos D))
                (snd (Win.GetCursorPos D))) in
  let v := fst (Win.TrackPoint D held) in
  v = 4278190080 + (c mod 256) * 65536 + (c / 256 mod 256) * 256
      + c / 65536 mod 256
  /\ 4278190080 <= v <= 4294967295
  /\ Z.shiftr v 24 = 255
  /\ Z.land (Z.shiftr v 16) 255 = Z.land c 255
  /\ Z.land (Z.shiftr v 8) 255 = Z.land (Z.shiftr c 8) 255
  /\ Z.land v 255 = Z.land (Z.shiftr c 16) 255.
Proof.
  cbv zeta. rewrite (TrackPoint_value D held). cbv zeta.
  set (c := to_unsigned 32 _).
  rewrite !land_255, !Z.shiftr_div_pow2 by lia.
  change (2 ^ 8) with 256. change (2 ^ 16) with 65536.
  change (2 ^ 24) with 16777216.
  pose proof (Z.mod_pos_bound c 256 ltac:(lia)).
  pose proof (Z.mod_pos_bound (c / 256) 256 ltac:(lia)).
  pose proof (Z.mod_pos_bound (c / 65536) 256 ltac:(lia)).
  set (r := c mod 256) in *. set (g := c / 256 mod 256) in *.
  set (b := c / 65536 mod 256) in *.
  repeat split; try lia.
  all: Z.div_mod_to_equations; lia.
Qed.

(** X2. [TrackPoint] does not look at the top byte of what [GetPixel]
    returns: two readings with the same low 24 bits give the same value.
    So [CLR_INVALID] (0xffffffff, no pixel there) cannot be told from
    white. *)
Theorem TrackPoint_ignores_top_byte (D D' : Win.Desktop) (held held' : list Z) :
  Win.GetPixel D (Win.GetDC D) (fst (Win.GetCursorPos D))
    (snd (Win.GetCursorPos D)) mod 2 ^ 24
  = Win.GetPixel D' (Win.GetDC D') (fst (Win.GetCursorPos D'))
      (snd (Win.GetCursorPos D')) mod 2 ^ 24 ->
  fst (Win.TrackPoint D held) = fst (Win.TrackPoint D' held').
Proof.
  intros Hsame.
  rewrite (TrackPoint_value D held), (TrackPoint_value D' held'). cbv zeta.
  unfold to_unsigned.
  destruct (bytes_of_low_24 (Win.GetPixel D (Win.GetDC D)
              (fst (Win.GetCursorPos D)) (snd (Win.GetCursorPos D))))
    as (-> & -> & ->).
  destruct (bytes_of_low_24 (Win.GetPixel D' (Win.GetDC D')
              (fst (Win.GetCursorPos D')) (snd (Win.GetCursorPos D'))))
    as (-> & -> & ->).
  now rewrite Hsame.
Qed.

Lemma TrackPoint_ignores_top_byte_witness :
  fst (Win.TrackPoint (Win.screen Win.CLR_INVALID) [])
  = fst (Win.TrackPoint (Win.screen 16777215) [7]).
Proof.
  apply (TrackPoint_ignores_top_byte (Win.screen Win.CLR_INVALID)
           (Win.screen 16777215) [] [7]).
  reflexivity.
Defined.

(** ** Paths *)

Lemma occurs_append c a b : occurs c (a ++ b) = occurs c a || occurs c b.
Proof.
  induction a as [|d a IH]; [reflexivity|].
  cbn [append occurs]. now rewrite IH, orb_assoc.
Qed.

Lemma rfind_append_last (pre post : string) (c : ascii) :
  occurs c post = false ->
  rfind (pre ++ String c post) c = Some (String.length pre).
Proof.
  intros Hpost. induction pre as [|d pre IH]; cbn [append rfind String.length].
  - apply rfind_None in Hpost. rewrite Hpost. now rewrite Ascii.eqb_refl.
  - now rewrite IH.
Qed.

(** What [relativeFilePath] returns for a base split at its last ['/']. *)
Lemma relativeFilePath_split (dir file rel : string) :
  occurs slash file = false ->
  relativeFilePath (dir ++ "/" ++ file) rel = Returned (dir ++ "/" ++ rel).
Proof.
  intros Hfile. unfold relativeFilePath.
  change (dir ++ "/" ++ file) with (dir ++ String slash file).
  rewrite (rfind_append_last dir file slash Hfile).
  apply replace_after_slash.
Qed.

Lemma prefix_append (p rest : string) : String.prefix p (p ++ rest) = true.
Proof.
  induction p as [|c p IH]; cbn; [now destruct rest|].
  destruct (ascii_dec c c); [exact IH | congruence].
Qed.

Lemma prefix_trans (a b c : string) :
  String.prefix a b = true -> String.prefix b c = true -> String.prefix a c = true.
Proof.
  revert b c. induction a as [|x a IH]; intros b c Hab Hbc; [now destruct c|].
  destruct b as [|y b]; [discriminate|]. destruct c as [|z c]; [discriminate|].
  cbn in *. destruct (ascii_dec x y) as [->|]; [|discriminate].
  destruct (ascii_dec y z) as [->|]; [|discriminate].
  eauto.
Qed.

Lemma append_inj_l (a b c : string) : a ++ b = a ++ c -> b = c.
Proof. induction a as [|x a IH]; cbn; [trivial|]. intros [= E]. auto. Qed.

(** X3. A path made by [relativeFilePath] from a file name serves as a
    base as well as the base it was made from: the directory part is
    the same.  (With a ['/'] in the name it is not.) *)
Theorem relativeFilePath_twice (base rel1 rel2 s : string) :
  occurs slash rel1 = false ->
  relativeFilePath base rel1 = Returned s ->
  relativeFilePath s rel2 = relativeFilePath base rel2.
Proof.
  intros Hrel1 Hs. unfold relativeFilePath in Hs at 1.
  destruct (rfind base slash) as [i|] eqn:E.
  - destruct (rfind_Some _ _ _ E) as (dir & file & -> & <- & Hfile).
    pose proof (replace_after_slash dir file rel1) as Hrep. cbv zeta in Hrep.
    rewrite Hrep in Hs. injection Hs as <-.
    transitivity (Returned (A := string) (dir ++ "/" ++ rel2)).
    + apply (relativeFilePath_split dir rel1 rel2 Hrel1).
    + symmetry. apply (relativeFilePath_split dir file rel2 Hfile).
  - injection Hs as <-. unfold relativeFilePath.
    apply rfind_None in Hrel1. rewrite Hrel1, E. reflexivity.
Qed.

Lemma relativeFilePath_twice_witness :
  relativeFilePath "designs/leaf.cfdg" "bark.cfdg"
  = relativeFilePath "designs/tree.cfdg" "bark.cfdg".
Proof.
  apply (relativeFilePath_twice "designs/tree.cfdg" "leaf.cfdg" "bark.cfdg"
           "designs/leaf.cfdg"); reflexivity.
Defined.

(** X4. When the base has a ['/'], [relativeFilePath] puts [rel] after
    the base's directory whatever [rel] is, an absolute path included:
    the result is a head of the base up to a ['/'] followed by [rel], it
    is longer than [rel] and has a ['/']. *)
Theorem relativeFilePath_joins_any_rel (base rel s : string) :
  occurs slash base = true ->
  relativeFilePath base rel = Returned s ->
  (String.length rel < String.length s)%nat
  /\ occurs slash s = true
  /\ exists head, s = head ++ "/" ++ rel /\ String.prefix (head ++ "/") base = true.
Proof.
  intros Hbase Hs. unfold relativeFilePath in Hs.
  destruct (rfind base slash) as [i|] eqn:E.
  - destruct (rfind_Some _ _ _ E) as (dir & file & -> & <- & Hfile).
    pose proof (replace_after_slash dir file rel) as Hrep. cbv zeta in Hrep.
    rewrite Hrep in Hs. injection Hs as <-.
    split; [|split].
    + rewrite !length_append. cbn [String.length]. lia.
    + rewrite occurs_append. cbn [append occurs]. rewrite Ascii.eqb_refl.
      cbn. apply orb_true_r.
    + exists dir. split; [reflexivity|].
      clear. induction dir as [|d dir IH]; cbn.
      * destruct (ascii_dec "/" "/"); [|congruence]. now destruct file.
      * destruct (ascii_dec d d); [exact IH | congruence].
  - apply rfind_None in E. congruence.
Qed.

Lemma relativeFilePath_joins_any_rel_witness :
  (String.length "/etc/passwd" < String.length "designs//etc/passwd")%nat
  /\ occurs slash "designs//etc/passwd" = true
  /\ exists head,
       "designs//etc/passwd" = head ++ "/" ++ "/etc/passwd"
       /\ String.prefix (head ++ "/") "designs/tree.cfdg" = true.
Proof.
  apply (relativeFilePath_joins_any_rel "designs/tree.cfdg" "/etc/passwd"
           "designs//etc/passwd"); reflexivity.
Defined.

(** ** Temporary files *)

Section MoreTempFiles.
Context {FS TempType : Type}.
Variable H : Host FS TempType.

(** X5. The directory [tempFileDirectory] returns is ["/tmp/"] or the
    value of one of TMPDIR, TEMP and TMP on which [stat] succeeded and
    reported a directory; the fallback itself is not checked. *)
Theorem tempFileDirectory_checked_or_fallback (w : world FS) :
  tempFileDirectory H w = "/tmp/"
  \/ exists variable st_mode,
       In variable ["TMPDIR"; "TEMP"; "TMP"]
       /\ env w variable = Some (tempFileDirectory H w)
       /\ stat H (fs w) (tempFileDirectory H w) = Some st_mode
       /\ S_ISDIR st_mode = true.
Proof.
  rewrite tempFileDirectory_rule. unfold Design.tempDirectory.
  assert (Hc : forall variable path,
             Design.candidate H w variable = Some path ->
             exists st_mode,
               env w variable = Some path
               /\ stat H (fs w) path = Some st_mode /\ S_ISDIR st_mode = true).
  { intros variable path. unfold Design.candidate.
    destruct (env w variable) as [p|]; [|discriminate].
    destruct (stat H (fs w) p) as [m|] eqn:E; [|discriminate].
    destruct (S_ISDIR m) eqn:D; [|discriminate].
    intros [= <-]. eauto. }
  destruct (Design.candidate H w "TMPDIR") as [p|] eqn:E1.
  { right. destruct (Hc _ _ E1) as (m & ? & ? & ?).
    exists "TMPDIR", m. cbn. auto. }
  destruct (Design.candidate H w "TEMP") as [p|] eqn:E2.
  { right. destruct (Hc _ _ E2) as (m & ? & ? & ?).
    exists "TEMP", m. cbn. auto. }
  destruct (Design.candidate H w "TMP") as [p|] eqn:E3.
  { right. destruct (Hc _ _ E3) as (m & ? & ? & ?).
    exists "TMP", m. cbn. auto. }
  now left.
Qed.

(** X6. Where [stat] fails on the empty path, as POSIX has it (ENOENT),
    the directory has a last character: the [back()] that
    [tempFileForWrite] and [findTempFiles] apply to it is defined. *)
Theorem tempFileDirectory_has_a_last_character (w : world FS) :
  stat H (fs w) "" = None ->
  exists c, back (tempFileDirectory H w) = Some c.
Proof.
  intros Hstat.
  pose proof (tempFileDirectory_not_empty H w Hstat) as Hne.
  destruct (back (tempFileDirectory H w)) as [c|] eqn:E; [now exists c|].
  destruct (tempFileDirectory H w) as [|c t]; [congruence|].
  exfalso. clear - E. revert c E.
  induction t as [|d t IH]; intros c E; cbn in E; [discriminate|].
  now apply (IH d).
Qed.


(** [findTempFiles] as a filter and a map. *)
Lemma findTempFiles_collects (w : world FS) :
  findTempFiles H w
  = match opendir H (fs w) (tempFileDirectory H w) with
    | Some entries =>
        map (fun name => with_separator (tempFileDirectory H w) ++ name)
            (filter (String.prefix (TempPrefixAll H)) entries)
    | None => []
    end.
Proof.
  unfold findTempFiles.
  destruct (opendir H (fs w) (tempFileDirectory H w)) as [entries|];
    [|reflexivity].
  rewrite (fold_left_collect
             (fun d_name => strncmp (TempPrefixAll H) d_name
                              (String.length (TempPrefixAll H)) =? 0)
             (fun d_name => with_separator (tempFileDirectory H w) ++ d_name)).
  cbn [app]. f_equal. apply filter_ext. intros a. apply strncmp_prefix.
Qed.

Lemma NoDup_map_append (head : string) (names : list string) :
  NoDup names -> NoDup (map (fun name => head ++ name) names).
Proof.
  induction 1 as [|name names Hnotin _ IH]; cbn; constructor; [|exact IH].
  intros Hin. apply in_map_iff in Hin as (other & Heq & Hother).
  apply append_inj_l in Heq. now subst other.
Qed.

(** X8. [findTempFiles] lists no path twice when [readdir] yields no
    name twice, and no more paths than the directory has entries. *)
Theorem findTempFiles_without_duplicates (w : world FS) (entries : list string) :
  opendir H (fs w) (tempFileDirectory H w) = Some entries ->
  NoDup entries ->
  NoDup (findTempFiles H w)
  /\ (List.length (findTempFiles H w) <= List.length entries)%nat.
Proof.
  intros Hopen Hnodup. rewrite findTempFiles_collects, Hopen. split.
  - apply NoDup_map_append. now apply NoDup_filter.
  - rewrite length_map. apply filter_length_le.
Qed.

(** X9. A file made by [tempFileForWrite] is found by [findTempFiles]:
    when [mkstemps] puts [six] characters for the six X, the prefix of
    the kind starts with [TempPrefixAll], and the directory chosen is
    the same afterwards and lists the file, then the name handed out is
    the directory, a ['/'] where it has none, prefix, [six] and suffix,
    and it is one of the paths [findTempFiles] returns. *)
Theorem created_temp_file_is_found
    (kind : TempType) (nameOut : string) (w : world FS)
    (stream : fdostream) (name six : string) :
  let dir := with_separator (tempFileDirectory H w) in
  let w' := snd (tempFileForWrite H kind nameOut w) in
  let file := TempPrefixes H kind ++ six ++ TempSuffixes H kind in
  Z.of_nat (String.length (TempSuffixes H kind)) <= INT32_MAX ->
  String.prefix (TempPrefixAll H) (TempPrefixes H kind) = true ->
  snd (fst (mkstemps H (fs w)
              (dir ++ TempPrefixes H kind ++ "XXXXXX" ++ TempSuffixes H kind)
              (Z.of_nat (String.length (TempSuffixes H kind)))))
  = dir ++ file ->
  fst (tempFileForWrite H kind nameOut w) = Returned (Some stream, name) ->
  tempFileDirectory H w' = tempFileDirectory H w ->
  (exists entries,
      opendir H (fs w') (tempFileDirectory H w') = Some entries
      /\ In file entries) ->
  name = dir ++ file /\ In name (findTempFiles H w').
Proof.
  intros dir w' file Hlen Hmarker Hfill Hmade Hdir (entries & Hopen & Hin).
  assert (Hname : name = dir ++ file).
  { revert Hmade Hfill.
    unfold tempFileForWrite, bind, get, put_fs, ret.
    rewrite to_int32_small by (unfold INT32_MAX in *; lia).
    rewrite !append_assoc. fold dir.
    destruct (mkstemps H (fs w) _ _) as [[tfd b] fs'].
    cbn [fst snd].
    destruct (negb (tfd =? -1)); cbn; [|discriminate].
    intros [= _ <-] <-. reflexivity. }
  split; [exact Hname|].
  rewrite findTempFiles_collects, Hopen, Hdir. fold dir. rewrite Hname.
  apply (in_map (fun name => dir ++ name)).
  apply filter_In. split; [exact Hin|].
  apply (prefix_trans _ _ _ Hmarker), prefix_append.
Qed.

End MoreTempFiles.

Lemma tempFileDirectory_has_a_last_character_witness :
  exists c, back (tempFileDirectory Demo.plain (Demo.start Demo.env_var_tmp)) = Some c.
Proof.
  apply (tempFileDirectory_has_a_last_character Demo.plain
           (Demo.start Demo.env_var_tmp)).
  reflexivity.
Defined.

Lemma findTempFiles_without_duplicates_witness :
  NoDup (findTempFiles Demo.plain (Demo.start Demo.env_var_tmp))
  /\ (List.length (findTempFiles Demo.plain (Demo.start Demo.env_var_tmp)) <= 5)%nat.
Proof.
  apply (findTempFiles_without_duplicates Demo.plain (Demo.start Demo.env_var_tmp)
           ["."; ".."; "cfdg_temp_fin_a1b2c3.tmp"; "notes.txt";
            "cfdg_temp_unfin_Zz09Qq"]).
  - reflexivity.
  - repeat (constructor; [cbn; intuition discriminate|]). constructor.
Defined.

Lemma created_temp_file_is_found_witness :
  "/var/tmp/cfdg_temp_fin_a1b2c3.tmp" = "/var/tmp/" ++ "cfdg_temp_fin_a1b2c3.tmp"
  /\ In "/var/tmp/cfdg_temp_fin_a1b2c3.tmp"
        (findTempFiles Demo.disk
           (snd (tempFileForWrite Demo.disk true "old"
                   (Demo.start_on ["notes.txt"])))).
Proof.
  apply (created_temp_file_is_found Demo.disk true "old"
           (Demo.start_on ["notes.txt"]) (mk_fdostream 5)
           "/var/tmp/cfdg_temp_fin_a1b2c3.tmp" "a1b2c3").
  - vm_compute. discriminate.
  - reflexivity.
  - reflexivity.
  - reflexivity.
  - reflexivity.
  - exists ["."; ".."; "notes.txt"; "cfdg_temp_fin_a1b2c3.tmp"].
    split; [reflexivity|]. cbn. auto.
Defined.

(** ** Memory, and the variant without normalization *)

Section MoreMemory.
Context {FS TempType : Type}.
Variable H : Host FS TempType.

(** X10. Where neither HW_MEMSIZE nor HW_PHYSMEM64 is defined and the
    platform is not Linux, [size] is an [unsigned int]: the memory
    reported is below 2^32 whatever the machine has. *)
Theorem getPhysicalMemory_of_32_bit_query :
  0 <= MaximumMemory H < 2 ^ size_t_bits H ->
  def_linux (build H) = false ->
  HW_MEMSIZE (build H) = None ->
  HW_PHYSMEM64 (build H) = None ->
  0 <= getPhysicalMemory H < 2 ^ 32.
Proof.
  intros Hceiling Hlinux Hmem Hmem64. unfold getPhysicalMemory.
  destruct (nosysctl (build H)); [lia|]. rewrite Hlinux.
  destruct (CTL_HW (build H)) as [ctl_hw|]; [|lia].
  unfold hw_query. rewrite Hmem, Hmem64.
  assert (Hq : forall name,
             0 <= (let '(r, size) := sysctl H [ctl_hw; name] (32 / 8) in
                   if r =? 0 then clamped H (to_unsigned 32 size) else 0)
             < 2 ^ 32).
  { intros name. destruct (sysctl H _ _) as [r size].
    destruct (r =? 0); [|lia].
    assert (Hsize : 0 <= to_unsigned 32 size < 2 ^ 32)
      by (apply Z.mod_pos_bound; reflexivity).
    rewrite (clamped_value H Hceiling) by lia.
    destruct (MaximumMemory H <? to_unsigned 32 size) eqn:E; [|lia].
    apply Z.ltb_lt in E. lia. }
  destruct (HW_REALMEM (build H)); [apply Hq|].
  destruct (HW_PHYSMEM (build H)); [apply Hq | lia].
Qed.

(** X11. On Linux, when both [sysconf] queries succeed and pages times
    page size fits 64 bits, the memory reported is that product or the
    ceiling [MaximumMemory], whichever is smaller. *)
Theorem getPhysicalMemory_linux_product (phys_pages pagesize : Z) :
  0 <= MaximumMemory H < 2 ^ size_t_bits H ->
  nosysctl (build H) = false ->
  def_linux (build H) = true ->
  SC_PHYS_PAGES (build H) = Some phys_pages ->
  SC_PAGESIZE (build H) = Some pagesize ->
  0 <= sysconf H phys_pages ->
  0 <= sysconf H pagesize ->
  sysconf H phys_pages * sysconf H pagesize < 2 ^ 64 ->
  getPhysicalMemory H
  = Z.min (sysconf H phys_pages * sysconf H pagesize) (MaximumMemory H).
Proof.
  intros Hceiling Hno Hlinux Hpp Hps Hpages Hsize Hfits.
  rewrite (getPhysicalMemory_linux H phys_pages pagesize) by assumption.
  set (n := sysconf H phys_pages) in *. set (p := sysconf H pagesize) in *.
  assert (Hproduct : to_uint64 (to_uint64 n * to_uint64 p) = n * p).
  { unfold to_uint64. destruct (Z.eq_dec n 0) as [->|Hn0].
    - reflexivity.
    - destruct (Z.eq_dec p 0) as [->|Hp0].
      + now rewrite Z.mul_0_r, (to_unsigned_small 64 0), Z.mul_0_r.
      + rewrite (to_unsigned_small 64 n), (to_unsigned_small 64 p) by nia.
        apply to_unsigned_small. nia. }
  rewrite Hproduct.
  rewrite (clamped_value H Hceiling) by nia.
  destruct (MaximumMemory H <? n * p) eqn:E.
  - apply Z.ltb_lt in E. lia.
  - apply Z.ltb_ge in E. lia.
Qed.


End MoreMemory.

Lemma getPhysicalMemory_of_32_bit_query_witness :
  0 <= getPhysicalMemory (Demo.with_sysctl Demo.freebsd 3221225472) < 2 ^ 32.
Proof.
  apply (getPhysicalMemory_of_32_bit_query
           (Demo.with_sysctl Demo.freebsd 3221225472));
    [cbn; lia | reflexivity | reflexivity | reflexivity].
Defined.

Lemma getPhysicalMemory_linux_product_witness :
  getPhysicalMemory Demo.plain = Z.min (1000000 * 4096) (2 ^ 33).
Proof.
  apply (getPhysicalMemory_linux_product Demo.plain 85 30);
    try reflexivity; cbn; lia.
Defined.

(** ** The calls of the two loops *)

Lemma to_int32_le (z : Z) : 0 <= z -> to_int32 z <= z.
Proof.
  intros Hz. unfold to_int32.
  pose proof (Z.mod_le (z + 2 ^ 31) (2 ^ 32)). lia.
Qed.

Section LoopLog.
Variable lay : Buf.layout.
Variable T : transform.

(** When the loop returns, its last call reported the length of the
    buffer returned and the status returned, and no call reported a
    failure other than overflow. *)
Lemma grow_returns_reported_length (fuel : nat) :
  forall status buf status' result,
  fst (Growth.grow lay T fuel status buf) = Returned (status', result) ->
  exists earlier last,
    snd (Growth.grow lay T fuel status buf) = (earlier ++ [last])%list
    /\ r_length last = Z.of_nat (List.length result)
    /\ r_status last = status'
    /\ forall r, In r (earlier ++ [last])%list ->
                 conversion_failed (r_status r) = false.
Proof.
  induction fuel as [|fuel IH]; intros status buf status' result; [discriminate|].
  rewrite grow_S. cbv zeta.
  destruct (T _ status) as [[sz st] out]. cbn [fst snd].
  destruct (conversion_failed st) eqn:Hst; [discriminate|].
  cbn [and_then]. rewrite length_store.
  destruct (sz <=? to_int32 (Z.of_nat (List.length buf))) eqn:Hfit.
  - apply Z.leb_le in Hfit.
    pose proof (to_int32_le (Z.of_nat (List.length buf)) ltac:(lia)) as Hle.
    unfold Buf.resize. destruct (sz <? 0) eqn:Hneg; [discriminate|].
    apply Z.ltb_ge in Hneg. rewrite length_store.
    replace (sz <=? Z.of_nat (List.length buf)) with true
      by (symmetry; apply Z.leb_le; lia).
    cbn [and_then fst snd]. intros [= <- <-].
    exists [], (mk_report (to_int32 (Z.of_nat (List.length buf) + 1)) sz st).
    cbn [app r_length r_status]. repeat split.
    + rewrite length_firstn, length_store. lia.
    + intros r [<-|[]]. exact Hst.
  - unfold succ_int32. destruct (INT32_MAX <? sz + 1); [discriminate|].
    cbn [and_then].
    destruct (resize_outcome (Buf.store lay out
                (to_int32 (Z.of_nat (List.length buf) + 1)) buf) (sz + 1) 32)
      as [E|[b E]]; rewrite E; [discriminate|].
    cbn [and_then]. intros Hret.
    destruct (IH st b status' result Hret) as (earlier & last & -> & Hlen & Hstat & Hok).
    exists (mk_report (to_int32 (Z.of_nat (List.length buf) + 1)) sz st :: earlier), last.
    repeat split; trivial.
    intros r [<-|Hin]; [exact Hst | now apply Hok].
Qed.

(** X13. What the loops of [normalize] offer: the first call is given
    the length of the buffer plus one as capacity, and every call after
    it two more than the call before reported, which had reported a
    length not below its capacity and no failure but overflow.  (Lengths
    within [int32_t].) *)
Theorem conversion_loops_offer_what_was_asked (fuel : nat) :
  forall status buf,
  Z.of_nat (List.length buf) < INT32_MAX ->
  (forall r, In r (snd (Growth.grow lay T fuel status buf)) ->
             r_length r < INT32_MAX - 1) ->
  (forall r, nth_error (snd (Growth.grow lay T fuel status buf)) 0 = Some r ->
             r_capacity r = Z.of_nat (List.length buf) + 1)
  /\ (forall i r r',
        nth_error (snd (Growth.grow lay T fuel status buf)) i = Some r ->
        nth_error (snd (Growth.grow lay T fuel status buf)) (S i) = Some r' ->
        r_capacity r <= r_length r
        /\ conversion_failed (r_status r) = false
        /\ r_capacity r' = r_length r + 2).
Proof.
  induction fuel as [|fuel IH]; intros status buf Hlen Hsmall.
  { split; [intros r|intros [|i] r r']; discriminate. }
  revert Hsmall. rewrite grow_S. cbv zeta.
  rewrite (to_int32_small (Z.of_nat (List.length buf) + 1))
    by (unfold INT32_MAX in *; lia).
  destruct (T _ status) as [[sz st] out]. cbn [fst snd].
  intros Hsmall. split; [intros r [= <-]; reflexivity|].
  pose proof (Hsmall _ (or_introl eq_refl)) as Hsz. cbn [r_length] in Hsz.
  revert Hsmall.
  destruct (conversion_failed st) eqn:Hst;
    [intros _ [|[|i]] r r'; discriminate|].
  cbn [and_then]. rewrite length_store.
  rewrite (to_int32_small (Z.of_nat (List.length buf)))
    by (unfold INT32_MAX in *; lia).
  destruct (sz <=? Z.of_nat (List.length buf)) eqn:Hfit.
  - destruct (resize_outcome (Buf.store lay out
                (Z.of_nat (List.length buf) + 1) buf) sz 0)
      as [E|[b E]]; rewrite E; intros _ [|[|i]] r r'; discriminate.
  - apply Z.leb_gt in Hfit. unfold succ_int32.
    replace (INT32_MAX <? sz + 1) with false
      by (symmetry; apply Z.ltb_ge; unfold INT32_MAX in *; lia).
    cbn [and_then].
    destruct (resize_grow (Buf.store lay out
                (Z.of_nat (List.length buf) + 1) buf) (sz + 1) 32)
      as [E Hgrown]; [rewrite length_store; lia|].
    rewrite E. cbn [and_then].
    set (grown := (Buf.store lay out _ buf ++ repeat 32 _)%list) in *.
    clearbody grown. intros Hsmall.
    destruct (IH st grown) as [Hfirst Hnext]; [lia | |].
    { intros r Hin. apply Hsmall. now right. }
    intros [|i] r r'; cbn [nth_error].
    + intros [= <-] Hr'. cbn [r_capacity r_length r_status].
      rewrite (Hfirst _ Hr'). repeat split; [lia | exact Hst | lia].
    + apply Hnext.
Qed.


End LoopLog.

Lemma conversion_loops_offer_what_was_asked_witness :
  (forall r,
      nth_error (snd (Growth.grow Buf.Units16 (Demo.fresh (Demo.twice [97; 98]))
                        3 U_ZERO_ERROR [32; 32])) 0 = Some r ->
      r_capacity r = 2 + 1)
  /\ (forall i r r',
        nth_error (snd (Growth.grow Buf.Units16 (Demo.fresh (Demo.twice [97; 98]))
                          3 U_ZERO_ERROR [32; 32])) i = Some r ->
        nth_error (snd (Growth.grow Buf.Units16 (Demo.fresh (Demo.twice [97; 98]))
                          3 U_ZERO_ERROR [32; 32])) (S i) = Some r' ->
        r_capacity r <= r_length r
        /\ conversion_failed (r_status r) = false
        /\ r_capacity r' = r_length r + 2).
Proof.
  apply (conversion_loops_offer_what_was_asked Buf.Units16
           (Demo.fresh (Demo.twice [97; 98])) 3 U_ZERO_ERROR [32; 32]).
  - reflexivity.
  - intros r Hin. vm_compute in Hin.
    destruct Hin as [<-|[<-|[]]]; reflexivity.
Defined.

(** The loop on a call that returns at once, with length 0, when the
    status it is handed is a failure. *)
Section GuardedLoop.
Variable lay : Buf.layout.
Variable T : transform.

Hypothesis T_guards : forall capacity status,
  U_FAILURE status = true -> T capacity status = (0, status, []).

(** Started with the overflow status, a guarded call does nothing and
    the loop cuts the buffer to nothing. *)
Lemma grow_guarded_from_overflow (fuel : nat) (buf : list Z) :
  Z.of_nat (List.length buf) <= INT32_MAX ->
  Growth.grow lay T (S fuel) U_BUFFER_OVERFLOW_ERROR buf
  = (Returned (U_BUFFER_OVERFLOW_ERROR, []),
     [mk_report (to_int32 (Z.of_nat (List.length buf) + 1)) 0
        U_BUFFER_OVERFLOW_ERROR]).
Proof.
  intros Hlen.
  rewrite (grow_fits lay T fuel U_BUFFER_OVERFLOW_ERROR buf 0
             U_BUFFER_OVERFLOW_ERROR []);
    [reflexivity | now apply T_guards | reflexivity | exact Hlen | lia].
Qed.

(** Once a call has reported an overflow the loop returns nothing. *)
Lemma grow_guarded_after_overflow (fuel : nat) :
  forall status buf r,
  U_FAILURE status = false ->
  Z.of_nat (List.length buf) < INT32_MAX ->
  (forall r', In r' (snd (Growth.grow lay T fuel status buf)) ->
              r_length r' < INT32_MAX - 1) ->
  In r (snd (Growth.grow lay T fuel status buf)) ->
  r_status r = U_BUFFER_OVERFLOW_ERROR ->
  r_capacity r <= r_length r ->
  fst (Growth.grow lay T fuel status buf) = Returned (U_BUFFER_OVERFLOW_ERROR, [])
  \/ fst (Growth.grow lay T fuel status buf) = OutOfFuel.
Proof.
  induction fuel as [|fuel IH]; intros status buf r Hstatus Hlen Hsmall Hin Hr Hhonest;
    [now right|].
  assert (Hcap : to_int32 (Z.of_nat (List.length buf) + 1)
                 = Z.of_nat (List.length buf) + 1)
    by (apply to_int32_small; unfold INT32_MAX in *; lia).
  destruct (T (to_int32 (Z.of_nat (List.length buf) + 1)) status)
    as [[sz st] out] eqn:HT.
  destruct (conversion_failed st) eqn:Hst.
  { exfalso. revert Hin.
    rewrite (grow_failed lay T fuel _ _ _ _ _ HT Hst). cbn [snd].
    intros [<-|[]]. cbn [r_status] in Hr. subst st. discriminate Hst. }
  assert (Hsz : sz < INT32_MAX - 1).
  { apply (Hsmall (mk_report (to_int32 (Z.of_nat (List.length buf) + 1)) sz st)).
    rewrite grow_S. cbv zeta. rewrite HT. cbn [snd]. now left. }
  destruct (Z_le_gt_dec sz (Z.of_nat (List.length buf))) as [Hfit|Hmore].
  - (* the loop ends here: its one report is no overflow of the capacity *)
    exfalso. revert Hin. rewrite grow_S. cbv zeta. rewrite HT, Hst.
    cbn [and_then]. rewrite length_store.
    rewrite (to_int32_small (Z.of_nat (List.length buf)))
      by (unfold INT32_MAX in *; lia).
    replace (sz <=? Z.of_nat (List.length buf)) with true
      by (symmetry; apply Z.leb_le; lia).
    destruct (resize_outcome (Buf.store lay out
                (to_int32 (Z.of_nat (List.length buf) + 1)) buf) sz 0)
      as [E|[b E]]; rewrite E; cbn [and_then snd];
      intros [<-|[]]; cbn [r_capacity r_length] in Hhonest; lia.
  - destruct (grow_again lay T fuel _ _ _ _ _ HT Hst) as [Hgrown Hstep];
      [lia | unfold INT32_MAX in *; lia|].
    rewrite Hstep in Hin, Hsmall |- *. cbn [fst snd] in *.
    set (grown := (Buf.store lay out _ buf ++ repeat 32 _)%list) in *.
    clearbody grown.
    destruct (U_FAILURE st) eqn:Hfail.
    + (* the status is the overflow: the next call is the last *)
      assert (st = U_BUFFER_OVERFLOW_ERROR) as ->.
      { unfold conversion_failed in Hst. rewrite Hfail in Hst.
        cbn in Hst. apply negb_false_iff, Z.eqb_eq in Hst. exact Hst. }
      destruct fuel as [|fuel]; [now right|].
      rewrite (grow_guarded_from_overflow fuel grown) by lia. now left.
    + destruct Hin as [<-|Hin].
      * (* the overflow is not this report *)
        cbn [r_status] in Hr. subst st. discriminate Hfail.
      * apply (IH st grown r); trivial; [lia|].
        intros r' Hr'. apply Hsmall. now right.
Qed.

End GuardedLoop.

(** ** normalize and the object *)

Ltac setup_done :=
  cbn; rewrite ?append_assoc;
  repeat split; eauto; try discriminate;
  try (exists ""; now rewrite append_nil_r);
  try match goal with
      | Hr : Returned _ = Returned _ |- _ =>
          injection Hr as <- <- <-; solve [reflexivity | assumption]
      end.

Section MoreNormalize.
Context {FS TempType : Type}.
Variable H : Host FS TempType.

(** What setting up ICU does to the process. *)
Lemma setup_icu_effect (w : world FS) :
  env (snd (setup_icu H w)) = env w
  /\ fs (snd (setup_icu H w)) = fs w
  /\ icu_calls (snd (setup_icu H w)) = icu_calls w
  /\ mErrorReported (this (snd (setup_icu H w))) = mErrorReported (this w)
  /\ (exists text, cerr (snd (setup_icu H w)) = cerr w ++ text)
  /\ (forall c, mConverter (this w) = Some c ->
                mConverter (this (snd (setup_icu H w))) = Some c)
  /\ (forall n, mNormalizer (this w) = Some n ->
                mNormalizer (this (snd (setup_icu H w))) = Some n)
  /\ (forall conv norm status,
        fst (setup_icu H w) = Returned (conv, norm, status) ->
        U_FAILURE status = false
        /\ mConverter (this (snd (setup_icu H w))) = conv
        /\ mNormalizer (this (snd (setup_icu H w))) = norm
        /\ cerr (snd (setup_icu H w)) = cerr w).
Proof.
  unfold setup_icu, bind, get, put_this, put_cerr, catastrophicError, exit, ret.
  cbn [fst snd].
  destruct (mConverter (this w)) as [c|] eqn:Ec;
    [change (U_FAILURE U_ZERO_ERROR) with false
    |destruct (ucnv_open H "utf-8" U_ZERO_ERROR) as [conv st] eqn:Eo;
     destruct (U_FAILURE st) eqn:Ef];
    cbv iota beta; cbn [fst snd].
  - (* the converter exists *)
    destruct (mNormalizer (this w)) as [n|] eqn:En.
    + change (U_FAILURE U_ZERO_ERROR) with false. setup_done.
    + destruct (unorm2_getNFKCInstance H U_ZERO_ERROR) as [norm st'] eqn:En'.
      destruct (U_FAILURE st') eqn:Ef'; setup_done.
  - (* its construction failed *)
    setup_done.
  - (* it was constructed *)
    destruct (mNormalizer (this w)) as [n|] eqn:En.
    + rewrite Ef. setup_done.
    + destruct (unorm2_getNFKCInstance H st) as [norm st'] eqn:En'.
      destruct (U_FAILURE st') eqn:Ef'; setup_done.
Qed.

(** The loops of [normalize] touch nothing but the log. *)
Lemma normalize_world (fuel : nat) (u8name : string) (w : world FS) :
  this (snd (normalize H fuel u8name w)) = this (snd (setup_icu H w))
  /\ cerr (snd (normalize H fuel u8name w)) = cerr (snd (setup_icu H w))
  /\ env (snd (normalize H fuel u8name w)) = env (snd (setup_icu H w))
  /\ fs (snd (normalize H fuel u8name w)) = fs (snd (setup_icu H w))
  /\ exists calls,
       icu_calls (snd (normalize H fuel u8name w)) = (icu_calls w ++ calls)%list.
Proof.
  destruct (setup_icu_effect w) as (_ & _ & Hlog & _).
  unfold normalize, bind, logged, ret.
  destruct (setup_icu H w) as [[[[conv norm] status]|e|code| |] w1];
    cbn [fst snd] in *;
    try (repeat split; trivial; exists []; now rewrite app_nil_r).
  destruct (decode_loop H conv u8name fuel status _)
    as [[[status1 u16name]|e|code| |] log1];
    cbn [fst snd this cerr env fs icu_calls];
    try (repeat split; trivial; exists log1; now rewrite Hlog).
  destruct (nfkc_loop H norm u16name fuel status1 _)
    as [[[status2 ret_]|e|code| |] log2];
    cbn [fst snd this cerr env fs icu_calls];
    repeat split; trivial; exists (log1 ++ log2)%list;
    now rewrite Hlog, app_assoc.
Qed.

(** X14. When [normalize] returns, the wide string has as many
    characters as the last ICU call of this run reported, and no call
    of the run reported a failure other than overflow. *)
Theorem normalize_returns_reported_length
    (fuel : nat) (u8name : string) (w : world FS) (ret_ : list Z) :
  fst (normalize H fuel u8name w) = Returned ret_ ->
  exists earlier last,
    icu_calls (snd (normalize H fuel u8name w))
    = (icu_calls w ++ earlier ++ [last])%list
    /\ r_length last = Z.of_nat (List.length ret_)
    /\ forall r, In r (earlier ++ [last])%list ->
                 conversion_failed (r_status r) = false.
Proof.
  intros Hret.
  destruct (normalize_runs H fuel u8name w)
    as [(code & _ & Hexit & _)|(conv & norm & status & _ & Hrun)];
    [rewrite Hexit in Hret; discriminate|].
  cbv zeta in Hrun.
  pose proof (grow_returns_reported_length Buf.Units16 (decode_call H conv u8name)
                fuel status (repeat 32 (String.length u8name))) as Hfirst.
  fold (decode_loop H conv u8name) in Hfirst.
  destruct (decode_loop H conv u8name fuel status _)
    as [[[status1 u16name]|e|code| |] log1]; cbn [fst snd] in Hrun, Hfirst;
    try (destruct Hrun as [_ Hrun]; rewrite Hrun in Hret; discriminate);
    [|contradiction].
  destruct (Hfirst _ _ eq_refl) as (earlier1 & last1 & -> & _ & _ & Hok1).
  pose proof (grow_returns_reported_length (wchar_layout H)
                (nfkc_call H norm u16name) fuel status1
                (repeat 32 (List.length u16name))) as Hsecond.
  fold (nfkc_loop H norm u16name) in Hsecond.
  destruct (nfkc_loop H norm u16name fuel status1 _)
    as [[[status2 ret2]|e|code| |] log2]; cbn [fst snd] in Hrun, Hsecond;
    destruct Hrun as [Hlog Hrun];
    try (rewrite Hrun in Hret; discriminate); [|contradiction].
  rewrite Hrun in Hret. injection Hret as <-.
  destruct (Hsecond _ _ eq_refl) as (earlier2 & last2 & -> & Hlen & _ & Hok2).
  exists ((earlier1 ++ [last1]) ++ earlier2)%list, last2.
  rewrite Hlog. repeat split.
  - now rewrite <- !app_assoc.
  - exact Hlen.
  - intros r Hin. rewrite <- app_assoc in Hin.
    apply in_app_or in Hin. destruct Hin; auto.
Qed.

(** X15. On an object that has both engines [normalize] constructs
    nothing: it does not exit, writes nothing to [std::cerr], and leaves
    the object, the environment and the file system as they were. *)
Theorem normalize_with_engines
    (fuel : nat) (u8name : string) (w : world FS) (c n : handle) :
  mConverter (this w) = Some c ->
  mNormalizer (this w) = Some n ->
  (forall code, fst (normalize H fuel u8name w) <> Exited code)
  /\ this (snd (normalize H fuel u8name w)) = this w
  /\ cerr (snd (normalize H fuel u8name w)) = cerr w
  /\ env (snd (normalize H fuel u8name w)) = env w
  /\ fs (snd (normalize H fuel u8name w)) = fs w.
Proof.
  intros Hc Hn.
  destruct (normalize_world fuel u8name w) as (Hthis & Hcerr & Henv & Hfs & _).
  destruct (setup_icu_effect w) as (Henv' & Hfs' & _ & Herr & _ & Hc' & Hn' & Hret).
  assert (Hsetup : fst (setup_icu H w) = Returned (Some c, Some n, U_ZERO_ERROR)).
  { unfold setup_icu, bind, get, put_this, ret. cbn [fst snd].
    rewrite Hc, Hn. reflexivity. }
  destruct (Hret _ _ _ Hsetup) as (_ & _ & _ & Hcerr').
  repeat split.
  - intros code Hexit.
    destruct (normalize_runs H fuel u8name w)
      as [(code' & Hs & _)|(conv & norm & status & _ & Hrun)];
      [rewrite Hsetup in Hs; discriminate|].
    cbv zeta in Hrun.
    destruct (fst (decode_loop H conv u8name fuel status _))
      as [[status1 u16name]|e|code'| |];
      try (destruct Hrun as [_ Hrun]; rewrite Hrun in Hexit; discriminate);
      [|contradiction].
    destruct Hrun as [_ Hrun].
    destruct (fst (nfkc_loop H norm u16name fuel status1 _))
      as [[status2 ret2]|e|code'| |];
      try (rewrite Hrun in Hexit; discriminate); contradiction.
  - rewrite Hthis.
    specialize (Hc' _ Hc). specialize (Hn' _ Hn).
    destruct (this (snd (setup_icu H w))), (this w). cbn in *. congruence.
  - congruence.
  - congruence.
  - congruence.
Qed.


Lemma carried_over_refl (w : world FS) : Calls.carried_over w w.
Proof.
  repeat split; trivial;
    [exists ""; now rewrite append_nil_r | exists []; now rewrite app_nil_r].
Qed.

Lemma carried_over_trans (w1 w2 w3 : world FS) :
  Calls.carried_over w1 w2 -> Calls.carried_over w2 w3 ->
  Calls.carried_over w1 w3.
Proof.
  intros (He & Hv & [t Ht] & [l Hl] & Hc & Hn)
         (He' & Hv' & [t' Ht'] & [l' Hl'] & Hc' & Hn').
  repeat split; try congruence; auto.
  - exists (t ++ t'). now rewrite Ht', Ht, append_assoc.
  - exists (l ++ l')%list. now rewrite Hl', Hl, app_assoc.
Qed.

(** One call of a member function. *)
Lemma run_carries_over (fuel : nat) (op : operation TempType) (w : world FS) :
  Calls.carried_over w (snd (run H fuel op w)).
Proof.
  destruct op; cbn [run].
  - unfold clearAndCR, put_cerr. cbn [snd].
    repeat split; trivial; cbn; eauto. exists []. now rewrite app_nil_r.
  - unfold catastrophicError, bind, put_cerr, exit. cbn [snd].
    repeat split; trivial; cbn; eauto. exists []. now rewrite app_nil_r.
  - apply carried_over_refl.
  - unfold tempFileForWrite, bind, get, put_fs, ret. cbn [fst snd].
    destruct (mkstemps H _ _ _) as [[tfd b] fs']. cbn [fst snd].
    destruct (negb (tfd =? -1)); cbn [snd];
      (repeat split; trivial; cbn;
       [exists ""; now rewrite append_nil_r | exists []; now rewrite app_nil_r]).
  - apply carried_over_refl.
  - unfold deleteTempFile, bind, get, put_fs, ret. cbn [fst snd].
    destruct (remove H _ _) as [r fs']. cbn [fst snd].
    repeat split; trivial; cbn;
       [exists ""; now rewrite append_nil_r | exists []; now rewrite app_nil_r].
  - apply carried_over_refl.
  - apply carried_over_refl.
  - change (Calls.carried_over w (snd (normalize H fuel u8name w))).
    destruct (normalize_world fuel u8name w) as (Hthis & Hcerr & Henv & Hfs & Hlog).
    destruct (setup_icu_effect w) as (Henv' & _ & _ & Herr & Htext & Hc & Hn & _).
    unfold Calls.carried_over. rewrite Hthis, Hcerr, Henv.
    repeat split; auto.
Qed.

(** X17. Whatever member functions are called, in whatever order and
    however they end: the error flag and the environment stay as they
    were, nothing written to [std::cerr] and no ICU call made is taken
    back, and a converter or normalizer once constructed stays the
    object's (it is not constructed again, nor dropped). *)
Theorem calls_carry_over (calls : list (nat * operation TempType)) :
  forall w : world FS, Calls.carried_over w (Calls.after H calls w).
Proof.
  induction calls as [|[fuel op] rest IH]; intros w; cbn [Calls.after].
  - apply carried_over_refl.
  - pose proof (run_carries_over fuel op w) as Hstep.
    destruct (run H fuel op w) as [o w']. cbn [snd] in Hstep.
    destruct o; trivial; apply (carried_over_trans _ _ _ Hstep (IH w')).
Qed.

End MoreNormalize.

Lemma normalize_returns_reported_length_witness :
  exists earlier last,
    icu_calls (snd (normalize Demo.plain16 3 "ab" (Demo.start Demo.env_var_tmp)))
    = (icu_calls (Demo.start Demo.env_var_tmp) ++ earlier ++ [last])%list
    /\ r_length last = Z.of_nat (List.length [97; 98])
    /\ forall r, In r (earlier ++ [last])%list ->
                 conversion_failed (r_status r) = false.
Proof.
  apply (normalize_returns_reported_length Demo.plain16 3 "ab"
           (Demo.start Demo.env_var_tmp) [97; 98]).
  reflexivity.
Defined.

Lemma normalize_with_engines_witness :
  let w := snd (normalize Demo.plain 3 "ab" (Demo.start Demo.env_var_tmp)) in
  (forall code, fst (normalize Demo.plain 3 "abc" w) <> Exited code)
  /\ this (snd (normalize Demo.plain 3 "abc" w)) = this w
  /\ cerr (snd (normalize Demo.plain 3 "abc" w)) = cerr w
  /\ env (snd (normalize Demo.plain 3 "abc" w)) = env w
  /\ fs (snd (normalize Demo.plain 3 "abc" w)) = fs w.
Proof.
  apply (normalize_with_engines Demo.plain 3 "abc"
           (snd (normalize Demo.plain 3 "ab" (Demo.start Demo.env_var_tmp))) 1 2);
    reflexivity.
Defined.


(** ** normalize over an ICU that guards the status *)

Section GuardedNormalize.
Context {FS TempType : Type}.
Variable H : Host FS TempType.
Hypothesis H_guards : Calls.guards_status H.

Lemma decode_call_guards conv u8name capacity status :
  U_FAILURE status = true ->
  decode_call H conv u8name capacity status = (0, status, []).
Proof. intros Hs. unfold decode_call. now apply (proj1 H_guards). Qed.

Lemma nfkc_call_guards norm u16name capacity status :
  U_FAILURE status = true ->
  nfkc_call H norm u16name capacity status = (0, status, []).
Proof. intros Hs. unfold nfkc_call. now apply (proj2 H_guards). Qed.

(** X18. [status] is not cleared before a call is repeated.  With ICU
    functions that return at once, with length 0, when handed a failure
    status, a run of [normalize] in which a call reported an overflow
    (status U_BUFFER_OVERFLOW_ERROR, a length not below the capacity)
    returns the empty string, if it returns: the repeated call does
    nothing, and the loops that follow cut their buffers to length 0.
    (Lengths within [int32_t].) *)
Theorem normalize_empty_after_overflow
    (fuel : nat) (u8name : string) (w : world FS) (calls : list report) (r : report) :
  Z.of_nat (String.length u8name) < INT32_MAX ->
  icu_calls (snd (normalize H fuel u8name w)) = (icu_calls w ++ calls)%list ->
  (forall r', In r' calls -> r_length r' < INT32_MAX - 1) ->
  In r calls ->
  r_status r = U_BUFFER_OVERFLOW_ERROR ->
  r_capacity r <= r_length r ->
  fst (normalize H fuel u8name w) = Returned []
  \/ fst (normalize H fuel u8name w) = OutOfFuel.
Proof.
  intros Hlen Hcalls Hsmall Hin Hr Hhonest.
  destruct (setup_icu_effect H w) as (_ & _ & _ & _ & _ & _ & _ & Hsetup).
  destruct (normalize_runs H fuel u8name w)
    as [(code & _ & _ & Hlog)|(conv & norm & status & Hs & Hrun)].
  { rewrite Hlog in Hcalls. rewrite <- (app_nil_r (icu_calls w)) in Hcalls at 1.
    apply app_inv_head in Hcalls. subst calls. contradiction. }
  destruct (Hsetup _ _ _ Hs) as (Hstatus & _).
  cbv zeta in Hrun.
  pose proof (grow_guarded_after_overflow Buf.Units16 (decode_call H conv u8name)
                (decode_call_guards conv u8name) fuel status
                (repeat 32 (String.length u8name))) as Hfirst.
  pose proof (grow_returns_reported_length Buf.Units16 (decode_call H conv u8name)
                fuel status (repeat 32 (String.length u8name))) as Hlast.
  fold (decode_loop H conv u8name) in Hfirst, Hlast.
  rewrite repeat_length in Hfirst.
  destruct (decode_loop H conv u8name fuel status _)
    as [[[status1 u16name]|e|code| |] log1]; cbn [fst snd] in Hrun, Hfirst, Hlast;
    try contradiction.
  - (* the first loop returned *)
    destruct (Hlast _ _ eq_refl) as (earlier & last & -> & Hlast_len & Hlast_st & Hok).
    pose proof (grow_guarded_after_overflow (wchar_layout H)
                  (nfkc_call H norm u16name)
                  (nfkc_call_guards norm u16name) fuel status1
                  (repeat 32 (List.length u16name))) as Hsecond.
    fold (nfkc_loop H norm u16name) in Hsecond.
    rewrite repeat_length in Hsecond.
    assert (Hu16 : Z.of_nat (List.length u16name) < INT32_MAX - 1).
    { rewrite <- Hlast_len.
      destruct (nfkc_loop H norm u16name fuel status1 _) as [o2 log2].
      cbn [fst snd] in Hrun. destruct Hrun as [Hlog _].
      rewrite Hlog in Hcalls. apply app_inv_head in Hcalls. subst calls.
      apply Hsmall. apply in_or_app. left. apply in_or_app. right. now left. }
    destruct (U_FAILURE status1) eqn:Hfail1.
    + (* it left the overflow status: the second loop ends at once *)
      assert (status1 = U_BUFFER_OVERFLOW_ERROR) as ->.
      { assert (Hl : In last (earlier ++ [last])%list)
          by (apply in_or_app; right; now left).
        apply Hok in Hl. rewrite Hlast_st in Hl.
        unfold conversion_failed in Hl. rewrite Hfail1 in Hl. cbn in Hl.
        apply negb_false_iff, Z.eqb_eq in Hl. exact Hl. }
      assert (Hend : fst (nfkc_loop H norm u16name fuel U_BUFFER_OVERFLOW_ERROR
                            (repeat 32 (List.length u16name)))
                     = Returned (U_BUFFER_OVERFLOW_ERROR, [])
                     \/ fst (nfkc_loop H norm u16name fuel U_BUFFER_OVERFLOW_ERROR
                               (repeat 32 (List.length u16name))) = OutOfFuel).
      { destruct fuel as [|fuel]; [now right|left]. unfold nfkc_loop.
        rewrite (grow_guarded_from_overflow (wchar_layout H)
                   (nfkc_call H norm u16name) (nfkc_call_guards norm u16name));
          [reflexivity | rewrite repeat_length; lia]. }
      destruct Hrun as [_ Hrun].
      destruct Hend as [Hend|Hend]; rewrite Hend in Hrun; auto.
    + (* it left a clean status: the overflow is reported in the second *)
      destruct (nfkc_loop H norm u16name fuel status1 _) as [o2 log2].
      cbn [fst snd] in Hrun, Hsecond. destruct Hrun as [Hlog Hrun].
      rewrite Hlog in Hcalls. apply app_inv_head in Hcalls. subst calls.
      apply in_app_or in Hin. destruct Hin as [Hin|Hin].
      * destruct (Hfirst r) as [[= -> _]|[=]]; trivial; [|discriminate].
        intros r' Hr'. apply Hsmall. apply in_or_app. now left.
      * destruct (Hsecond r eq_refl ltac:(lia)) as [E|E]; trivial.
        -- intros r' Hr'. apply Hsmall. apply in_or_app. now right.
        -- subst o2. now left.
        -- subst o2. now right.
  - destruct Hrun as [Hlog Hrun]; rewrite Hlog in Hcalls;
      apply app_inv_head in Hcalls; subst calls;
      destruct (Hfirst r) as [[=]|[=]]; trivial.
  - destruct Hrun as [Hlog Hrun]; rewrite Hlog in Hcalls;
      apply app_inv_head in Hcalls; subst calls;
      destruct (Hfirst r) as [[=]|[=]]; trivial.
  - destruct Hrun as [Hlog Hrun]; rewrite Hlog in Hcalls;
      apply app_inv_head in Hcalls; subst calls;
      destruct (Hfirst r) as [[=]|[=]]; trivial; now right.
Qed.

End GuardedNormalize.

Lemma lengthening_guarded_guards : Calls.guards_status Demo.lengthening_guarded.
Proof.
  split; intros ? ? ? ? status Hs; cbn; unfold Demo.guarded; now rewrite Hs.
Qed.

Lemma normalize_empty_after_overflow_witness :
  fst (normalize Demo.lengthening_guarded 3 "ab" (Demo.start Demo.env_var_tmp))
  = Returned []
  \/ fst (normalize Demo.lengthening_guarded 3 "ab" (Demo.start Demo.env_var_tmp))
     = OutOfFuel.
Proof.
  apply (normalize_empty_after_overflow Demo.lengthening_guarded
           lengthening_guarded_guards 3 "ab" (Demo.start Demo.env_var_tmp)
           [mk_report 3 2 U_ZERO_ERROR; mk_report 3 4 U_BUFFER_OVERFLOW_ERROR;
            mk_report 6 0 U_BUFFER_OVERFLOW_ERROR]
           (mk_report 3 4 U_BUFFER_OVERFLOW_ERROR)).
  - reflexivity.
  - reflexivity.
  - intros r' [<-|[<-|[<-|[]]]]; reflexivity.
  - right. now left.
  - reflexivity.
  - vm_compute. discriminate.
Defined.
